(** * Brain-tumour MRI classification service

    A shallow embedding of [app/app.py]: the upload filter [allowed_file],
    the image preprocessor, the statistics tracker, the predictor and the
    [/predict] request handler, followed by the properties the service
    specification states about them.

    Conventions of the embedding.
    - Python strings are [string]s of bytes; [lower] acts on ASCII letters.
      (No string with a non-ASCII character lower-cases to one of the six
      extensions, so the set of accepted file names is the same.)
    - Finite float values are rationals ([Q]); the rounding of float
      arithmetic, infinities and NaN are not represented.
    - Python dicts and sets are [gmap]s and [gset]s, the multi-dict of
      uploaded files is an association list.
    - Code that mutates the process-wide [prediction_stats], reads the
      clock, draws random numbers, prints or calls into Pillow, NumPy or
      the Keras model runs in the monad [M]: a state monad over [World]
      with Python exceptions.  State changes made before an exception is
      raised persist, as in Python. *)

From Stdlib Require Import Ascii String QArith Qabs.
From stdpp Require Import gmap strings list fin_maps.

Open Scope string_scope.

(** ** Strings *)

Module Str.

Definition chars (s : string) : list ascii := list_ascii_of_string s.
Definition of_chars (l : list ascii) : string := string_of_list_ascii l.

(** [c in s] for a one-character needle. *)
Definition contains (c : ascii) (s : string) : bool :=
  existsb (Ascii.eqb c) (chars s).

Definition lower_char (c : ascii) : ascii :=
  let n := nat_of_ascii c in
  if (65 <=? n)%nat && (n <=? 90)%nat then ascii_of_nat (n + 32) else c.

(** [s.lower()] *)
Definition lower (s : string) : string := of_chars (map lower_char (chars s)).

(** Split [l] at its last occurrence of [sep]. *)
Fixpoint rsplit_last (sep : ascii) (l : list ascii)
  : option (list ascii * list ascii) :=
  match l with
  | [] => None
  | c :: l' =>
      match rsplit_last sep l' with
      | Some (h, t) => Some (c :: h, t)
      | None => if Ascii.eqb c sep then Some ([], l') else None
      end
  end.

(** [s.rsplit(sep, 1)]: at most one split, taken from the right. *)
Definition rsplit1 (sep : ascii) (s : string) : list string :=
  match rsplit_last sep (chars s) with
  | Some (h, t) => [of_chars h; of_chars t]
  | None => [s]
  end.

End Str.

(** ** Exceptions and results *)

(** A Python exception: its class name and its message, [str(e)]. *)
Record exn := Exception { exn_class : string; exn_msg : string }.

Definition str_exn (e : exn) : string := exn_msg e.

Inductive Result (A : Type) : Type :=
| Ok (a : A)
| Raise (e : exn).
Arguments Ok {A} a.
Arguments Raise {A} e.

Definition IndexError := Exception "IndexError".
Definition KeyError := Exception "KeyError".
Definition ValueError := Exception "ValueError".
Definition TypeError := Exception "TypeError".

(** ** Configuration constants *)

Definition IMG_SIZE : nat * nat := (224, 224)%nat.

Definition CLASS_NAMES : list string :=
  ["glioma"; "meningioma"; "notumor"; "pituitary"].

(** ** The upload filter *)

Definition allowed_extensions : gset string :=
  {[ "png"; "jpg"; "jpeg"; "gif"; "bmp"; "tiff" ]}.

(** [allowed_file]: the right operand of [and] is evaluated only when the
    name contains a dot, in which case [rsplit] has two parts (lemma
    [rsplit1_contains]); the [None] branch stands for the [IndexError] that
    cannot occur. *)
Definition allowed_file (filename : string) : bool :=
  Str.contains "." filename &&
  match Str.rsplit1 "." filename !! 1%nat with
  | Some ext => bool_decide (Str.lower ext ∈ allowed_extensions)
  | None => false
  end.

(** ** Dates and times *)

(** [datetime.date]: compared as the tuple (year, month, day). *)
Record date := Date { year : Z; month : Z; day : Z }.

Record datetime := Datetime {
  dt_date : date;          (* [.date()] *)
  hour : Z; minute : Z; second : Z; microsecond : Z
}.

(** [a < b] on dates. *)
Definition date_lt (a b : date) : bool :=
  (year a <? year b)%Z
  || ((year a =? year b)%Z
      && ((month a <? month b)%Z
          || ((month a =? month b)%Z && (day a <? day b)%Z))).

(** [a > b] on dates. *)
Definition date_gt (a b : date) : bool := date_lt b a.

(** ** JSON values *)

#[local] Unset Elimination Schemes.
Inductive json :=
| JNull
| JBool (b : bool)
| JNum (q : Q)
| JStr (s : string)
| JArr (items : list json)
| JObj (fields : list (string * json)).
#[local] Set Elimination Schemes.

(** ** Class metadata *)

Record ClassInfo := {
  ci_name : string; ci_description : string; ci_severity : string;
  ci_color : string; ci_icon : string
}.

Definition CLASS_DESCRIPTIONS : gmap string ClassInfo :=
  list_to_map [
    ("glioma",
      {| ci_name := "Glioma";
         ci_description :=
           "Tumor arising from glial cells in the brain or spinal cord.";
         ci_severity := "High"; ci_color := "#ef4444";
         ci_icon := "fas fa-brain" |});
    ("meningioma",
      {| ci_name := "Meningioma";
         ci_description :=
           "Typically benign tumor arising from the meninges surrounding the brain.";
         ci_severity := "Medium"; ci_color := "#f59e0b";
         ci_icon := "fas fa-brain" |});
    ("notumor",
      {| ci_name := "No Tumor";
         ci_description := "Normal brain tissue with no evidence of tumor.";
         ci_severity := "Normal"; ci_color := "#10b981";
         ci_icon := "fas fa-check-circle" |});
    ("pituitary",
      {| ci_name := "Pituitary";
         ci_description :=
           "Tumor developing in the pituitary gland at the base of the brain.";
         ci_severity := "Medium"; ci_color := "#3b82f6";
         ci_icon := "fas fa-brain" |})
  ].

(** ** Statistics state *)

Record Stats := {
  total_predictions : nat;
  predictions_today : nat;
  last_prediction_time : option datetime;
  class_distribution : gmap string nat
}.

(** The value [prediction_stats] is bound to when the module is loaded. *)
Definition initial_stats : Stats := {|
  total_predictions := 0;
  predictions_today := 0;
  last_prediction_time := None;
  class_distribution := list_to_map ((λ class_name, (class_name, 0%nat)) <$> CLASS_NAMES)
|}.

(** ** Images (Pillow) *)

(** A decoded image: its mode, its size as (width, height) and its pixels
    in row-major order, each pixel a list of band samples. *)
Record Image := {
  mode : string;
  size : nat * nat;
  getdata : list (list Q)
}.

(** [Image.getbands]: number of bands per mode. *)
Definition getbands (m : string) : option nat :=
  if bool_decide (m ∈ ["1"; "L"; "P"; "I"; "F"; "I;16"; "I;16L"; "I;16B"; "I;16N"])
  then Some 1%nat
  else if bool_decide (m ∈ ["LA"; "PA"; "La"]) then Some 2%nat
  else if bool_decide (m ∈ ["RGB"; "YCbCr"; "LAB"; "HSV"]) then Some 3%nat
  else if bool_decide (m ∈ ["RGBA"; "CMYK"; "RGBX"; "RGBa"]) then Some 4%nat
  else None.

(** Modes whose samples are stored in 32 or 16 bits; all others have
    8-bit samples. *)
Definition wide_mode (m : string) : bool :=
  bool_decide (m ∈ ["I"; "F"; "I;16"; "I;16L"; "I;16B"; "I;16N"]).

(** An 8-bit sample: an integer between 0 and 255. *)
Definition is_u8 (q : Q) : bool :=
  (Qden q =? 1)%positive && (0 <=? Qnum q)%Z && (Qnum q <=? 255)%Z.

(** A validly decoded image: a known mode, positive dimensions, one pixel
    per position, one sample per band, 8-bit samples in 8-bit modes. *)
Definition valid_image (i : Image) : bool :=
  match getbands (mode i) with
  | None => false
  | Some nb =>
      (0 <? fst (size i))%nat && (0 <? snd (size i))%nat
      && (length (getdata i) =? fst (size i) * snd (size i))%nat
      && forallb (λ px, (length px =? nb)%nat
                        && (wide_mode (mode i) || forallb is_u8 px))
                 (getdata i)
  end.

(** ** Arrays (NumPy) *)

Inductive Dtype := uint8 | float32 | float64.

(** An n-dimensional array: element type, shape and the elements in
    row-major order.  NumPy scalars are the arrays of shape [[]]. *)
Record ndarray := {
  dtype : Dtype;
  shape : list nat;
  data : list Q
}.

Definition prod_shape (s : list nat) : nat := foldr Nat.mul 1%nat s.

(** [len(a.shape)] *)
Definition ndim (a : ndarray) : nat := length (shape a).

(** [np.array(image, dtype=np.float32)]: shape (height, width, bands),
    or (height, width) for a single band, holding the samples as stored.
    The code applies it to what [convert('RGB')] and [resize] return. *)
Definition np_array_of_image (i : Image) : ndarray :=
  let nb := default 1%nat (getbands (mode i)) in
  {| dtype := float32;
     shape := [snd (size i); fst (size i)] ++ (if (nb =? 1)%nat then [] else [nb]);
     data := concat (getdata i) |}.

(** [a / c] for a Python float [c]: element-wise, the dtype of a float
    array is kept. *)
Definition np_truediv (a : ndarray) (c : Q) : ndarray :=
  {| dtype := dtype a; shape := shape a; data := (λ x, x / c)%Q <$> data a |}.

(** [a * c] *)
Definition np_mul (a : ndarray) (c : Q) : ndarray :=
  {| dtype := dtype a; shape := shape a; data := (λ x, x * c)%Q <$> data a |}.

(** [np.expand_dims(a, axis=0)] *)
Definition np_expand_dims0 (a : ndarray) : ndarray :=
  {| dtype := dtype a; shape := 1%nat :: shape a; data := data a |}.

(** [a[i]] for a non-negative integer [i]: the [i]-th slice along the
    first axis; indexing a scalar or past the first axis raises
    [IndexError]. *)
Definition np_getitem (a : ndarray) (i : nat) : Result ndarray :=
  match shape a with
  | [] => Raise (IndexError "invalid index to scalar variable.")
  | d :: rest =>
      if (i <? d)%nat then
        Ok {| dtype := dtype a; shape := rest;
              data := take (prod_shape rest) (drop (i * prod_shape rest) (data a)) |}
      else Raise (IndexError "index out of bounds")
  end.

(** Index of the first greatest element of [x :: l], counting from [i];
    [best] is the greatest element seen so far and [besti] its index. *)
Fixpoint argmax_from (l : list Q) (i : nat) (best : Q) (besti : nat) : nat :=
  match l with
  | [] => besti
  | x :: l' =>
      if Qle_bool x best then argmax_from l' (S i) best besti
      else argmax_from l' (S i) x i
  end.

Definition argmax (l : list Q) : nat :=
  match l with
  | [] => 0%nat
  | x :: l' => argmax_from l' 1 x 0
  end.

(** [np.argmax(a)]: index into the flattened array of the first
    occurrence of the maximum; empty arrays raise [ValueError]. *)
Definition np_argmax (a : ndarray) : Result nat :=
  match data a with
  | [] => Raise (ValueError "attempt to get argmax of an empty sequence")
  | _ => Ok (argmax (data a))
  end.

(** [float(a)]: defined on scalars; on an array of one element and at
    least one dimension NumPy converts with a deprecation warning or
    raises, depending on its version ([len1_ok]). *)
Definition py_float (len1_ok : bool) (a : ndarray) : Result Q :=
  match data a with
  | [x] =>
      if (ndim a =? 0)%nat || len1_ok then Ok x
      else Raise (TypeError "only 0-dimensional arrays can be converted to Python scalars")
  | _ => Raise (TypeError "only length-1 arrays can be converted to Python scalars")
  end.

(** [float(a[i])] *)
Definition float_item (len1_ok : bool) (a : ndarray) (i : nat) : Result Q :=
  match np_getitem a i with
  | Ok x => py_float len1_ok x
  | Raise e => Raise e
  end.

(** [l[i]] on a Python list. *)
Definition list_getitem {A} (l : list A) (i : nat) : Result A :=
  match l !! i with
  | Some x => Ok x
  | None => Raise (IndexError "list index out of range")
  end.

(** [d[k]] on a Python dict. *)
Definition dict_getitem {A} (d : gmap string A) (k : string) : Result A :=
  match d !! k with
  | Some x => Ok x
  | None => Raise (KeyError k)
  end.

(** ** The world the service runs in *)

(** What the process does to its surroundings: lines printed and calls
    into the libraries that hold state or do input/output. *)
Inductive Event :=
| EvPrint (line : string)
| EvCall (function : string).

(** Mutable state: the global [prediction_stats], how often the clock and
    the random generator have been consulted, and the events so far
    (latest first). *)
Record World := {
  prediction_stats : Stats;
  clock_reads : nat;
  rng_draws : nat;
  trace : list Event
}.

(** The collaborators the code consumes.  [model] is the global of that
    name: [None] when loading the artifact failed, otherwise the model's
    [predict]. *)
Record Env := {
  model : option (ndarray → Result ndarray);
  datetime_now : nat → datetime;          (* k-th reading of the clock *)
  dirichlet4 : nat → Q * Q * Q * Q;       (* k-th draw of Dirichlet(1,1,1,1) *)
  exp32 : Q → Q;                          (* float exponential *)
  float_len1_ok : bool;                   (* see [py_float] *)
  Image_open : string → Result Image;
  Image_verify : Image → Result unit;
  Image_convert : Image → string → Result Image;
  Image_resize : Image → nat * nat → Result Image;
  Image_thumbnail : Image → nat * nat → Result Image;
  Image_save_png : Image → Result string;
  b64encode : string → string;
  isoformat : datetime → string;
  http_date : datetime → string
}.

(** ** The monad of effects *)

Definition M (A : Type) : Type := World → Result A * World.

Definition ret {A} (a : A) : M A := λ w, (Ok a, w).

Definition raise {A} (e : exn) : M A := λ w, (Raise e, w).

Definition bind {A B} (c : M A) (k : A → M B) : M B :=
  λ w, match c w with
       | (Ok a, w') => k a w'
       | (Raise e, w') => (Raise e, w')
       end.

(** [try: c except Exception as e: h e] *)
Definition try_except {A} (c : M A) (h : exn → M A) : M A :=
  λ w, match c w with
       | (Ok a, w') => (Ok a, w')
       | (Raise e, w') => h e w'
       end.

Definition lift {A} (r : Result A) : M A := λ w, (r, w).

#[export] Instance M_ret : MRet M := @ret.
#[export] Instance M_bind : MBind M := λ A B k c, bind c k.

Definition emit (ev : Event) : M unit :=
  λ w, (Ok tt, {| prediction_stats := prediction_stats w;
                  clock_reads := clock_reads w;
                  rng_draws := rng_draws w;
                  trace := ev :: trace w |}).

(** [print(line)] *)
Definition print (line : string) : M unit := emit (EvPrint line).

(** A call into a library: recorded, then its outcome. *)
Definition call {A} (function : string) (r : Result A) : M A :=
  emit (EvCall function);; lift r.

Definition get_stats : M Stats := λ w, (Ok (prediction_stats w), w).

(** Assignment to one key of [prediction_stats]. *)
Definition modify_stats (f : Stats → Stats) : M unit :=
  λ w, (Ok tt, {| prediction_stats := f (prediction_stats w);
                  clock_reads := clock_reads w;
                  rng_draws := rng_draws w;
                  trace := trace w |}).

Definition set_total_predictions (n : nat) (st : Stats) : Stats :=
  {| total_predictions := n;
     predictions_today := predictions_today st;
     last_prediction_time := last_prediction_time st;
     class_distribution := class_distribution st |}.

Definition set_predictions_today (n : nat) (st : Stats) : Stats :=
  {| total_predictions := total_predictions st;
     predictions_today := n;
     last_prediction_time := last_prediction_time st;
     class_distribution := class_distribution st |}.

Definition set_last_prediction_time (t : option datetime) (st : Stats) : Stats :=
  {| total_predictions := total_predictions st;
     predictions_today := predictions_today st;
     last_prediction_time := t;
     class_distribution := class_distribution st |}.

Definition set_class_distribution (d : gmap string nat) (st : Stats) : Stats :=
  {| total_predictions := total_predictions st;
     predictions_today := predictions_today st;
     last_prediction_time := last_prediction_time st;
     class_distribution := d |}.

(** [for x in l: f x], collecting the values. *)
Fixpoint mapM {A B} (f : A → M B) (l : list A) : M (list B) :=
  match l with
  | [] => ret []
  | x :: l' => y ← f x; ys ← mapM f l'; ret (y :: ys)
  end.

(** ** Prediction results *)

Record ProbEntry := {
  probability : Q;
  percentage : Q;
  info : ClassInfo
}.

(** The dict [predict_image] builds; [all_probabilities] in insertion
    order. *)
Record Prediction := {
  predicted_class : string;
  confidence : Q;
  all_probabilities : list (string * ProbEntry);
  class_info : ClassInfo
}.

(** [enumerate(l)] *)
Definition enumerate {A} (l : list A) : list (nat * A) := imap (λ i x, (i, x)) l.

(** ** Requests and responses *)

Record FileStorage := {
  filename : string;
  stream : string
}.

(** [request.files]: a multi-dict, several parts may share a field name. *)
Record Request := {
  files : list (string * FileStorage)
}.

(** [request.files[key]] when [key in request.files]: the first part of
    that name. *)
Definition files_get (key : string) (request : Request) : option FileStorage :=
  (λ found, found.2.2) <$> list_find (λ kv, kv.1 = key) (files request).

(** Body and status code. *)
Definition Response : Type := json * nat.

(** [jsonify({'error': message})] *)
Definition error_json (message : string) : json := JObj [("error", JStr message)].

(** Truth value of the [error] component: [None] and the empty string are
    false. *)
Definition truthy (error : option string) : bool :=
  match error with
  | None => false
  | Some s => negb (bool_decide (s = ""))
  end.

Definition class_info_json (c : ClassInfo) : json :=
  JObj [("name", JStr (ci_name c));
        ("description", JStr (ci_description c));
        ("severity", JStr (ci_severity c));
        ("color", JStr (ci_color c));
        ("icon", JStr (ci_icon c))].

Definition prob_entry_json (e : ProbEntry) : json :=
  JObj [("probability", JNum (probability e));
        ("percentage", JNum (percentage e));
        ("info", class_info_json (info e))].

Definition prediction_fields (r : Prediction) : list (string * json) :=
  [("predicted_class", JStr (predicted_class r));
   ("confidence", JNum (confidence r));
   ("all_probabilities",
     JObj ((λ kv, (kv.1, prob_entry_json kv.2)) <$> all_probabilities r));
   ("class_info", class_info_json (class_info r))].

Section Service.

Variable env : Env.

(** [datetime.now()] *)
Definition now : M datetime :=
  λ w, (Ok (datetime_now env (clock_reads w)),
        {| prediction_stats := prediction_stats w;
           clock_reads := S (clock_reads w);
           rng_draws := rng_draws w;
           trace := EvCall "datetime.now" :: trace w |}).

(** [np.random.dirichlet(np.ones(4), size=1)]: an array of shape (1, 4). *)
Definition np_random_dirichlet : M ndarray :=
  λ w, let '(a, b, c, d) := dirichlet4 env (rng_draws w) in
       (Ok {| dtype := float64; shape := [1; 4]%nat; data := [a; b; c; d] |},
        {| prediction_stats := prediction_stats w;
           clock_reads := clock_reads w;
           rng_draws := S (rng_draws w);
           trace := EvCall "np.random.dirichlet" :: trace w |}).

(** [tf.nn.softmax(a).numpy()] on a vector:
    [exp(a) / reduce_sum(exp(a))]. *)
Definition tf_nn_softmax (a : ndarray) : ndarray :=
  let es := exp32 env <$> data a in
  let total := foldr Qplus 0%Q es in
  {| dtype := dtype a; shape := shape a; data := (λ e, e / total)%Q <$> es |}.

(** *** Preprocessor *)

Definition preprocess_for_inference (image : Image) : M ndarray :=
  image ← (if bool_decide (mode image ≠ "RGB")
            then call "Image.convert" (Image_convert env image "RGB")
            else ret image);
  image ← call "Image.resize" (Image_resize env image IMG_SIZE);
  let img_array := np_array_of_image image in
  let img_array := np_truediv img_array 255 in
  let img_array := np_expand_dims0 img_array in
  ret img_array.

(** *** Statistics tracker *)

Definition update_statistics (predicted_class : string) : M unit :=
  now_ ← now;
  st ← get_stats;
  modify_stats (set_total_predictions (total_predictions st + 1));;
  st ← get_stats;
  (match last_prediction_time st with
   | Some last =>
       let last_date := dt_date last in
       if date_gt (dt_date now_) last_date then
         modify_stats (set_predictions_today 1)
       else
         modify_stats (set_predictions_today (predictions_today st + 1))
   | None =>
       modify_stats (set_predictions_today 1)
   end);;
  modify_stats (set_last_prediction_time (Some now_));;
  st ← get_stats;
  count ← lift (dict_getitem (class_distribution st) predicted_class);
  modify_stats (set_class_distribution
                  (<[predicted_class := (count + 1)%nat]> (class_distribution st))).

(** *** Predictor *)

(** The three lines both branches of [predict_image] end with:
    [predicted_idx = np.argmax(probs)],
    [predicted_class = CLASS_NAMES[predicted_idx]],
    [confidence = float(probs[predicted_idx])]. *)
Definition select_top (probs : ndarray) : M (ndarray * nat * string * Q) :=
  predicted_idx ← lift (np_argmax probs);
  predicted_class ← lift (list_getitem CLASS_NAMES predicted_idx);
  confidence ← lift (float_item (float_len1_ok env) probs predicted_idx);
  ret (probs, predicted_idx, predicted_class, confidence).

(** One entry of the [all_probabilities] comprehension. *)
Definition probability_entry (probs : ndarray) (ic : nat * string)
  : M (string * ProbEntry) :=
  let '(i, class_name) := ic in
  probability_ ← lift (float_item (float_len1_ok env) probs i);
  p_i ← lift (np_getitem probs i);
  percentage_ ← lift (py_float (float_len1_ok env) (np_mul p_i 100));
  info_ ← lift (dict_getitem CLASS_DESCRIPTIONS class_name);
  ret (class_name,
       {| probability := probability_; percentage := percentage_; info := info_ |}).

(** The [if model is None: ... else: ...] of [predict_image]: the
    probabilities, the index and name of the top class and its
    probability. *)
Definition predict_image_branch (image : Image) : M (ndarray * nat * string * Q) :=
  match model env with
  | None =>
      print "Using dummy model";;
      draws ← np_random_dirichlet;
      probs ← lift (np_getitem draws 0);
      select_top probs
  | Some model_predict =>
      img_array ← preprocess_for_inference image;
      predictions ← call "model.predict" (model_predict img_array);
      probs ← (if (ndim predictions =? 2)%nat then
                 row ← lift (np_getitem predictions 0);
                 ret (tf_nn_softmax row)
               else lift (np_getitem predictions 0));
      select_top probs
  end.

(** The body of the [try] block of [predict_image]. *)
Definition predict_image_try (image : Image) : M Prediction :=
  '(probs, predicted_idx, predicted_class_, confidence_) ←
    predict_image_branch image;
  update_statistics predicted_class_;;
  all_probabilities_ ← mapM (probability_entry probs) (enumerate CLASS_NAMES);
  class_info_ ← lift (dict_getitem CLASS_DESCRIPTIONS predicted_class_);
  ret {| predicted_class := predicted_class_;
         confidence := confidence_;
         all_probabilities := all_probabilities_;
         class_info := class_info_ |}.

(** [predict_image]: the pair (result, error). *)
Definition predict_image (image : Image) : M (option Prediction * option string) :=
  try_except
    (result ← predict_image_try image; ret (Some result, None))
    (λ e, print ("Prediction error: " +:+ str_exn e);;
          ret (None, Some (str_exn e))).

(** *** Request handler *)

Definition image_to_base64 (image : Image) : M string :=
  png ← call "Image.save" (Image_save_png env image);
  let img_str := b64encode env png in
  ret ("data:image/png;base64," +:+ img_str).

Definition stats_json (st : Stats) : json :=
  JObj [("total_predictions", JNum (inject_Z (Z.of_nat (total_predictions st))));
        ("predictions_today", JNum (inject_Z (Z.of_nat (predictions_today st))));
        ("last_prediction_time",
          match last_prediction_time st with
          | None => JNull
          | Some t => JStr (http_date env t)
          end);
        ("class_distribution",
          JObj ((λ kv, (kv.1, JNum (inject_Z (Z.of_nat kv.2))))
                  <$> map_to_list (class_distribution st)))].

(** The steps of [predict] after the upload has been decoded. *)
Definition predict_decoded (file : FileStorage) (image : Image) : M Response :=
  '(result, error) ← predict_image image;
  if truthy error then
    ret (error_json (default "" error), 500%nat)
  else
    let preview_size := (400, 400)%nat in
    preview_image ← call "Image.copy" (Ok image);
    preview_image ← call "Image.thumbnail"
                      (Image_thumbnail env preview_image preview_size);
    img_base64 ← image_to_base64 preview_image;
    match result with
    | None =>
        raise (TypeError "'NoneType' object does not support item assignment")
    | Some result =>
        timestamp ← now;
        stats ← get_stats;
        ret (JObj (prediction_fields result ++
                   [("image_preview", JStr img_base64);
                    ("original_size",
                      JArr [JNum (inject_Z (Z.of_nat (fst (size image))));
                            JNum (inject_Z (Z.of_nat (snd (size image))))]);
                    ("filename", JStr (filename file));
                    ("timestamp", JStr (isoformat env timestamp));
                    ("stats", stats_json stats)]),
             200%nat)
    end.

(** The inner [try] of [predict]: decode, verify, rewind, decode again;
    a failure of any of them is answered with 400. *)
Definition open_upload (file : FileStorage) : M (Image + Response) :=
  try_except
    (image ← call "Image.open" (Image_open env (stream file));
     call "Image.verify" (Image_verify env image);;
     call "stream.seek" (Ok tt);;
     image ← call "Image.open" (Image_open env (stream file));
     ret (inl image))
    (λ e, ret (inr (error_json ("Invalid image file: " +:+ str_exn e), 400%nat))).

(** [POST /predict] *)
Definition predict (request : Request) : M Response :=
  try_except
    (match files_get "file" request with
     | None => ret (error_json "No file uploaded", 400%nat)
     | Some file =>
         if bool_decide (filename file = "") then
           ret (error_json "No file selected", 400%nat)
         else if negb (allowed_file (filename file)) then
           ret (error_json
                  "File type not allowed. Please use PNG, JPG, JPEG, GIF, BMP, or TIFF",
                400%nat)
         else
           opened ← open_upload file;
           match opened with
           | inr response => ret response
           | inl image => predict_decoded file image
           end
     end)
    (λ e, print ("Route error: " +:+ str_exn e);;
          ret (error_json (str_exn e), 500%nat)).

End Service.

(** ** The other endpoints *)

(** What a view returns: a JSON document or plain text. *)
Inductive Body :=
| BJson (j : json)
| BText (s : string).

(** [Image.new('RGB', IMG_SIZE, color='white')] *)
Definition white_image : Image :=
  {| mode := "RGB"; size := IMG_SIZE;
     getdata := replicate (IMG_SIZE.1 * IMG_SIZE.2) [255; 255; 255]%Q |}.

(** [jsonify(CLASS_DESCRIPTIONS)] *)
Definition classes_json : json :=
  JObj ((λ kv, (kv.1, class_info_json kv.2)) <$> map_to_list CLASS_DESCRIPTIONS).

(** [d[key]] on a JSON object: the value last assigned to [key]. *)
Definition json_field (key : string) (j : json) : option json :=
  match j with
  | JObj fields =>
      (λ found, found.2.2) <$> list_find (λ kv, kv.1 = key) (reverse fields)
  | _ => None
  end.

Section Endpoints.

Variable env : Env.

(** [GET /api/statistics] *)
Definition get_statistics : M Response :=
  stats ← get_stats;
  ret (stats_json env stats, 200%nat).

(** [GET /api/classes] *)
Definition get_classes : M Response :=
  ret (classes_json, 200%nat).

(** [GET /test-image]: a returned string is sent as text with status 200.
    [Image.new] with these constant arguments is taken to succeed. *)
Definition test_image : M (Body * nat) :=
  try_except
    (test_image_ ← call "Image.new" (Ok white_image);
     '(result, error) ← predict_image env test_image_;
     if truthy error then
       ret (BText ("Error: " +:+ default "" error), 200%nat)
     else
       ret (BJson (JObj [("status", JStr "success");
                         ("message", JStr "Model is working correctly");
                         ("test_prediction",
                           match result with
                           | Some r => JObj (prediction_fields r)
                           | None => JNull
                           end)]),
            200%nat))
    (λ e, ret (BJson (error_json (str_exn e)), 500%nat)).

(** [GET /health] *)
Definition health_check : M Response :=
  timestamp ← now env;
  ret (JObj [("status", JStr "healthy");
             ("model_loaded", JBool (bool_decide (is_Some (model env))));
             ("timestamp", JStr (isoformat env timestamp))],
       200%nat).

End Endpoints.

(** The handler of status 413. *)
Definition too_large : Response :=
  (error_json "File is too large. Maximum size is 16MB", 413%nat).

(** The handler of status 500. *)
Definition server_error : Response :=
  (error_json "Internal server error", 500%nat).

(** ** Vocabulary of the specification *)

(** The extension of a file name: what follows its last dot, if it has
    one. *)
Definition extension (filename : string) : option string :=
  match Str.rsplit_last "." (Str.chars filename) with
  | Some (_, t) => Some (Str.of_chars t)
  | None => None
  end.

(** The extension is one of the six, compared without regard to case. *)
Definition extension_allowed (filename : string) : Prop :=
  ∃ ext allowed, extension filename = Some ext
                 ∧ allowed ∈ allowed_extensions
                 ∧ Str.lower ext = Str.lower allowed.

Definition file_type_error : Response :=
  (error_json "File type not allowed. Please use PNG, JPG, JPEG, GIF, BMP, or TIFF",
   400%nat).

(** The probability vector a result reports, in the order of its entries. *)
Definition reported_probabilities (r : Prediction) : list Q :=
  (λ kv, probability kv.2) <$> all_probabilities r.

(** Sum over the four classes of their counts. *)
Definition class_distribution_sum (st : Stats) : nat :=
  sum_list ((λ class_name, default 0%nat (class_distribution st !! class_name))
              <$> CLASS_NAMES).

(** The counters agree: every class has a count, the total is the sum of
    the counts and the count of the day does not exceed the total. *)
Definition stats_consistent (st : Stats) : Prop :=
  (∀ class_name, class_name ∈ CLASS_NAMES →
                 is_Some (class_distribution st !! class_name))
  ∧ total_predictions st = class_distribution_sum st
  ∧ (predictions_today st ≤ total_predictions st)%nat.

(** A prediction that returned a result. *)
Definition successful (out : option Prediction * option string) : Prop :=
  is_Some out.1.

(** What the preprocessor relies on from Pillow: a valid image converts
    to RGB without changing size, and resizes to any positive size
    without changing mode; both yield valid images. *)
Record Pillow_ok (env : Env) : Prop := {
  convert_rgb_ok : ∀ i,
    valid_image i = true →
    ∃ i', Image_convert env i "RGB" = Ok i'
          ∧ valid_image i' = true ∧ mode i' = "RGB" ∧ size i' = size i;
  resize_ok : ∀ i sz,
    valid_image i = true → (0 < sz.1)%nat → (0 < sz.2)%nat →
    ∃ i', Image_resize env i sz = Ok i'
          ∧ valid_image i' = true ∧ mode i' = mode i ∧ size i' = sz
}.

(** Every class has a count. *)
Definition has_class_counts (st : Stats) : Prop :=
  ∀ class_name, class_name ∈ CLASS_NAMES →
                is_Some (class_distribution st !! class_name).

(** How often [class_name] occurs in [l]. *)
Definition occurrences (class_name : string) (l : list string) : nat :=
  length (filter (λ c, c = class_name) l).

(** Neither the statistics, nor the clock, nor the random generator have
    been used. *)
Definition untouched : relation World :=
  λ w w', prediction_stats w' = prediction_stats w
          ∧ clock_reads w' = clock_reads w
          ∧ rng_draws w' = rng_draws w.

(** [c] keeps [R] between the world it starts in and the world it
    leaves, whatever its outcome. *)
Definition preserves {A} (R : relation World) (c : M A) : Prop :=
  ∀ w, R w (c w).2.

(** The statistics are the same. *)
Definition same_stats : relation World :=
  λ w w', prediction_stats w' = prediction_stats w.

(** No event is lost. *)
Definition trace_grows : relation World :=
  λ w w', (length (trace w) ≤ length (trace w'))%nat.

(** [c] records at least one event, whatever its outcome. *)
Definition emits {A} (c : M A) : Prop :=
  ∀ w, (length (trace w) < length (trace (c w).2))%nat.

(** ** A small concrete environment

    Used to run the service on examples: a codec that produces uniformly
    black images, a clock that advances one day every second reading and
    a random generator that always draws the same vector. *)

Definition black (m : string) (sz : nat * nat) : Image :=
  {| mode := m; size := sz;
     getdata := replicate (sz.1 * sz.2) (replicate (default 1%nat (getbands m)) 0%Q) |}.

Definition demo_clock (k : nat) : datetime :=
  {| dt_date := Date 2024 1 (1 + Z.of_nat k / 2);
     hour := 9; minute := 30; second := 0; microsecond := 0 |}.

Definition demo_env (mdl : option (ndarray → Result ndarray)) : Env := {|
  model := mdl;
  datetime_now := demo_clock;
  dirichlet4 := λ _, (1 # 10, 2 # 10, 4 # 10, 3 # 10)%Q;
  exp32 := λ x, (1 + x * x)%Q;
  float_len1_ok := true;
  Image_open := λ _, Ok (black "L" (2, 3)%nat);
  Image_verify := λ _, Ok tt;
  Image_convert := λ i m, Ok (black m (size i));
  Image_resize := λ i sz, Ok (black (mode i) sz);
  Image_thumbnail := λ i _, Ok (black (mode i) (1, 1)%nat);
  Image_save_png := λ _, Ok "PNG";
  b64encode := λ s, s;
  isoformat := λ _, "2024-01-01T09:30:00";
  http_date := λ _, "Mon, 01 Jan 2024 09:30:00 GMT"
|}.

(** A model whose output is one row of four logits. *)
Definition demo_model : ndarray → Result ndarray :=
  λ _, Ok {| dtype := float32; shape := [1; 4]%nat; data := [1; 2; 5; 0]%Q |}.

(** The demonstration environment with a codec that cannot convert
    between modes. *)
Definition demo_env_no_convert (mdl : option (ndarray → Result ndarray)) : Env := {|
  model := mdl;
  datetime_now := demo_clock;
  dirichlet4 := dirichlet4 (demo_env mdl);
  exp32 := exp32 (demo_env mdl);
  float_len1_ok := true;
  Image_open := Image_open (demo_env mdl);
  Image_verify := Image_verify (demo_env mdl);
  Image_convert := λ _ _, Raise (ValueError "conversion not supported");
  Image_resize := Image_resize (demo_env mdl);
  Image_thumbnail := Image_thumbnail (demo_env mdl);
  Image_save_png := Image_save_png (demo_env mdl);
  b64encode := b64encode (demo_env mdl);
  isoformat := isoformat (demo_env mdl);
  http_date := http_date (demo_env mdl)
|}.

(** The demonstration environment with a decoder that rejects every
    upload. *)
Definition demo_env_no_decode (mdl : option (ndarray → Result ndarray)) : Env := {|
  model := mdl;
  datetime_now := demo_clock;
  dirichlet4 := dirichlet4 (demo_env mdl);
  exp32 := exp32 (demo_env mdl);
  float_len1_ok := true;
  Image_open := λ _, Raise (Exception "UnidentifiedImageError" "cannot identify image file");
  Image_verify := Image_verify (demo_env mdl);
  Image_convert := Image_convert (demo_env mdl);
  Image_resize := Image_resize (demo_env mdl);
  Image_thumbnail := Image_thumbnail (demo_env mdl);
  Image_save_png := Image_save_png (demo_env mdl);
  b64encode := b64encode (demo_env mdl);
  isoformat := isoformat (demo_env mdl);
  http_date := http_date (demo_env mdl)
|}.


Definition demo_model_1d : ndarray → Result ndarray :=
  λ _, Ok {| dtype := float32; shape := [4]%nat;
             data := [1 # 10; 2 # 10; 3 # 10; 4 # 10]%Q |}.

Definition demo_model_failing : ndarray → Result ndarray :=
  λ _, Raise (Exception "ResourceExhaustedError" "out of memory").

(** The world right after start-up. *)
Definition fresh_world : World :=
  {| prediction_stats := initial_stats; clock_reads := 0; rng_draws := 0; trace := [] |}.

Definition upload (name : string) : Request :=
  {| files := [("file", {| filename := name; stream := "..." |})] |}.

(** * Properties *)

(** ** The monad *)

Lemma bind_Ok {A B} (c : M A) (k : A → M B) w b w' :
  (c ≫= k) w = (Ok b, w') ↔ ∃ a w1, c w = (Ok a, w1) ∧ k a w1 = (Ok b, w').
Proof.
  unfold mbind, M_bind, bind. split.
  - destruct (c w) as [[a|e] w1]; [eauto | discriminate].
  - intros (a & w1 & -> & Hk). exact Hk.
Qed.

Lemma bind_Raise {A B} (c : M A) (k : A → M B) w e w' :
  (c ≫= k) w = (Raise e, w') ↔
  c w = (Raise e, w') ∨ ∃ a w1, c w = (Ok a, w1) ∧ k a w1 = (Raise e, w').
Proof.
  unfold mbind, M_bind, bind. split.
  - destruct (c w) as [[a|e1] w1]; [eauto | intros [= -> ->]; auto].
  - intros [-> | (a & w1 & -> & Hk)]; [reflexivity | exact Hk].
Qed.

Lemma lift_Ok {A} (r : Result A) w a w' :
  lift r w = (Ok a, w') ↔ r = Ok a ∧ w' = w.
Proof. unfold lift. split; [intros [= -> ->] | intros [-> ->]]; auto. Qed.

Lemma ret_Ok {A} (x : A) w a w' : ret x w = (Ok a, w') ↔ a = x ∧ w' = w.
Proof. unfold ret. split; [intros [= -> ->] | intros [-> ->]]; auto. Qed.

(** ** The upload filter *)

Example allowed_file_png : allowed_file "scan.png" = true.
Proof. vm_compute. reflexivity. Qed.

Example allowed_file_upper : allowed_file "scan.v2.JPeG" = true.
Proof. vm_compute. reflexivity. Qed.

Example allowed_file_txt : allowed_file "notes.txt" = false.
Proof. vm_compute. reflexivity. Qed.

Example allowed_file_nodot : allowed_file "png" = false.
Proof. vm_compute. reflexivity. Qed.

Example allowed_file_trailing_dot : allowed_file "scan.png." = false.
Proof. vm_compute. reflexivity. Qed.

Lemma contains_spec c s : Str.contains c s = true ↔ c ∈ Str.chars s.
Proof.
  unfold Str.contains. rewrite existsb_exists. split.
  - intros (x & Hin & Heq). apply Ascii.eqb_eq in Heq as ->.
    by apply list_elem_of_In.
  - intros Hin. exists c. split; [by apply list_elem_of_In | apply Ascii.eqb_refl].
Qed.

Lemma rsplit_last_None sep l : Str.rsplit_last sep l = None ↔ sep ∉ l.
Proof.
  induction l as [|c l IH]; simpl.
  - split; [intros _; apply not_elem_of_nil | done].
  - destruct (Str.rsplit_last sep l) as [[h t]|].
    + split; [done |]. intros Hn. exfalso.
      assert (sep ∉ l) as Hl by (intros ?; apply Hn; by right).
      apply IH in Hl. discriminate.
    + destruct (Ascii.eqb c sep) eqn:E.
      * apply Ascii.eqb_eq in E as ->. split; [done |].
        intros Hn. exfalso. apply Hn. by left.
      * apply Ascii.eqb_neq in E. split; [| done]. intros _.
        rewrite not_elem_of_cons. split; [congruence | by apply IH].
Qed.

(** The index [[1]] in [allowed_file] is in range whenever it is
    evaluated. *)
Lemma rsplit1_contains s :
  Str.contains "." s = true → is_Some (Str.rsplit1 "." s !! 1%nat).
Proof.
  intros Hc. unfold Str.rsplit1.
  destruct (Str.rsplit_last "." (Str.chars s)) as [[h t]|] eqn:E; [by eexists |].
  apply rsplit_last_None in E. by apply contains_spec in Hc.
Qed.

(** [allowed_file] in the words of the specification. *)
Lemma allowed_file_extension filename :
  allowed_file filename = true ↔ extension_allowed filename.
Proof.
  unfold allowed_file, extension_allowed, extension, Str.rsplit1.
  destruct (Str.rsplit_last "." (Str.chars filename)) as [[h t]|] eqn:E.
  - assert (Str.contains "." filename = true) as ->.
    { apply contains_spec. destruct (decide ("."%char ∈ Str.chars filename)) as [|Hn]; [done |].
      apply rsplit_last_None in Hn. congruence. }
    simpl. rewrite bool_decide_eq_true. split.
    + intros Hin. exists (Str.of_chars t), (Str.lower (Str.of_chars t)).
      split; [done |]. split; [done |].
      unfold allowed_extensions in Hin.
      repeat (apply elem_of_union in Hin as [Hin | Hin]);
        apply elem_of_singleton in Hin; rewrite Hin; reflexivity.
    + intros (ext & allowed & [= <-] & Hin & Heq). rewrite Heq.
      unfold allowed_extensions in Hin.
      repeat (apply elem_of_union in Hin as [Hin | Hin]);
        apply elem_of_singleton in Hin; subst allowed; vm_compute; reflexivity.
  - assert (Str.contains "." filename = false) as ->.
    { apply not_true_iff_false. rewrite contains_spec. by apply rsplit_last_None. }
    simpl. split; [done |]. intros (ext & ? & [=] & _).
Qed.

(** ** Request validation *)

Lemma files_get_None key request :
  files_get key request = None ↔ key ∉ (files request).*1.
Proof.
  unfold files_get. rewrite fmap_None, list_find_None, Forall_forall.
  rewrite list_elem_of_fmap. split.
  - intros H ([k f] & -> & Hin). by apply (H _ Hin).
  - intros H [k f] Hin Hk. apply H. by exists (k, f).
Qed.

(** C7. A request to [POST /predict] without a ['file'] part is answered
    with status 400 and the body [{"error": "No file uploaded"}]; the
    world is left as it was: the statistics are not touched and no call
    is made, so the predictor (which always leaves an event, lemma
    [predict_image_leaves_trace]) has not run. *)
Theorem predict_no_file env request w :
  "file" ∉ (files request).*1 →
  predict env request w = (Ok (error_json "No file uploaded", 400%nat), w).
Proof.
  intros Hno. apply files_get_None in Hno.
  unfold predict, try_except. rewrite Hno. reflexivity.
Qed.

Lemma predict_no_file_witness :
  predict (demo_env None) {| files := [] |} fresh_world
  = (Ok (error_json "No file uploaded", 400%nat), fresh_world).
Proof. apply predict_no_file. simpl. apply not_elem_of_nil. Defined.

(** What [predict] does with a part named ['file'] whose name is not
    empty and fails the filter. *)
Lemma predict_rejects env request file w :
  files_get "file" request = Some file →
  filename file ≠ "" →
  allowed_file (filename file) = false →
  predict env request w = (Ok file_type_error, w).
Proof.
  intros Hfile Hname Hext. unfold predict, try_except. rewrite Hfile.
  rewrite bool_decide_eq_false_2 by done. rewrite Hext. reflexivity.
Qed.

(** C8, as stated, fails for an upload whose file name is empty: the
    name has no extension, let alone an allowed one, yet the answer is
    "No file selected" and not the file-type message. *)
Lemma predict_empty_filename_not_file_type_error :
  files_get "file" (upload "") = Some {| filename := ""; stream := "..." |}
  ∧ ¬ extension_allowed ""
  ∧ (predict (demo_env None) (upload "") fresh_world).1
    = Ok (error_json "No file selected", 400%nat)
  ∧ (predict (demo_env None) (upload "") fresh_world).1 ≠ Ok file_type_error.
Proof.
  split; [reflexivity |]. split.
  { rewrite <- allowed_file_extension. vm_compute. discriminate. }
  split; [reflexivity |]. vm_compute. discriminate.
Qed.

(** C8, amended. When the uploaded file name is not empty and its
    extension is not one of png, jpg, jpeg, gif, bmp, tiff (compared
    without regard to case), [POST /predict] answers with status 400 and
    the file-type message, and the world is left as it was: in particular
    no [Image.open] has been called. *)
Theorem predict_disallowed_extension env request file w :
  files_get "file" request = Some file →
  filename file ≠ "" →
  ¬ extension_allowed (filename file) →
  predict env request w = (Ok file_type_error, w).
Proof.
  intros Hfile Hname Hext. apply (predict_rejects _ _ file); [done.. |].
  apply not_true_iff_false. by rewrite allowed_file_extension.
Qed.

Lemma predict_disallowed_extension_witness :
  predict (demo_env None) (upload "report.txt") fresh_world
  = (Ok file_type_error, fresh_world).
Proof.
  apply (predict_disallowed_extension _ _ {| filename := "report.txt"; stream := "..." |}).
  - reflexivity.
  - discriminate.
  - rewrite <- allowed_file_extension. vm_compute. discriminate.
Defined.

(** C10. A file name without a dot fails [allowed_file]; an upload under
    such a name, when the name is not empty, is answered with the 400
    file-type error whatever the content of the file and whatever the
    decoder would make of it. *)
Theorem predict_no_dot_rejected filename_ :
  "."%char ∉ Str.chars filename_ →
  allowed_file filename_ = false
  ∧ ∀ env request file w,
      files_get "file" request = Some file →
      filename file = filename_ →
      filename_ ≠ "" →
      predict env request w = (Ok file_type_error, w).
Proof.
  intros Hdot.
  assert (allowed_file filename_ = false) as Hf.
  { unfold allowed_file.
    assert (Str.contains "." filename_ = false) as ->; [| done].
    apply not_true_iff_false. by rewrite contains_spec. }
  split; [done |]. intros env request file w Hfile <- Hne.
  by apply (predict_rejects _ _ file).
Qed.

Lemma predict_no_dot_rejected_witness :
  allowed_file "scan_png" = false
  ∧ predict (demo_env None) (upload "scan_png") fresh_world
    = (Ok file_type_error, fresh_world).
Proof.
  assert ("."%char ∉ Str.chars "scan_png") as Hdot.
  { rewrite <- contains_spec. vm_compute. discriminate. }
  destruct (predict_no_dot_rejected "scan_png" Hdot) as [Hf Hp].
  split; [exact Hf |].
  apply (Hp _ _ {| filename := "scan_png"; stream := "..." |});
    [reflexivity | reflexivity | discriminate].
Defined.

(** ** Statistics tracker *)

Example date_lt_rollover : date_lt (Date 2023 12 31) (Date 2024 1 1) = true.
Proof. reflexivity. Qed.

Example date_lt_same_day : date_lt (Date 2024 1 1) (Date 2024 1 1) = false.
Proof. reflexivity. Qed.

(** A world whose last prediction was made on the given day, the fifth
    of that day. *)
Example update_statistics_rollover :
  let w := {| prediction_stats :=
                {| total_predictions := 12; predictions_today := 5;
                   last_prediction_time :=
                     Some {| dt_date := Date 2023 12 31;
                             hour := 23; minute := 59; second := 59;
                             microsecond := 0 |};
                   class_distribution := class_distribution initial_stats |};
              clock_reads := 0; rng_draws := 0; trace := [] |} in
  predictions_today
    (prediction_stats (update_statistics (demo_env None) "glioma" w).2) = 1%nat.
Proof. vm_compute. reflexivity. Qed.

Example update_statistics_same_day :
  let w := {| prediction_stats :=
                {| total_predictions := 12; predictions_today := 5;
                   last_prediction_time :=
                     Some {| dt_date := Date 2024 1 1;
                             hour := 0; minute := 0; second := 1;
                             microsecond := 0 |};
                   class_distribution := class_distribution initial_stats |};
              clock_reads := 0; rng_draws := 0; trace := [] |} in
  predictions_today
    (prediction_stats (update_statistics (demo_env None) "glioma" w).2) = 6%nat.
Proof. vm_compute. reflexivity. Qed.

(** One call of [update_statistics], statement by statement: the world it
    leaves and whether the last statement found its key. *)
Lemma update_statistics_unfold env predicted_class w :
  let now_ := datetime_now env (clock_reads w) in
  let st := prediction_stats w in
  let today :=
    match last_prediction_time st with
    | Some last =>
        if date_gt (dt_date now_) (dt_date last) then 1%nat
        else (predictions_today st + 1)%nat
    | None => 1%nat
    end in
  let w1 dist :=
    {| prediction_stats :=
         {| total_predictions := total_predictions st + 1;
            predictions_today := today;
            last_prediction_time := Some now_;
            class_distribution := dist |};
       clock_reads := S (clock_reads w);
       rng_draws := rng_draws w;
       trace := EvCall "datetime.now" :: trace w |} in
  update_statistics env predicted_class w =
    match class_distribution st !! predicted_class with
    | Some count =>
        (Ok tt, w1 (<[predicted_class := (count + 1)%nat]> (class_distribution st)))
    | None => (Raise (KeyError predicted_class), w1 (class_distribution st))
    end.
Proof.
  unfold update_statistics, now, get_stats, modify_stats, lift, dict_getitem,
    mbind, M_bind, bind. simpl.
  destruct (last_prediction_time (prediction_stats w)) as [last|]; simpl.
  - destruct (date_gt _ _); simpl;
      destruct (class_distribution (prediction_stats w) !! predicted_class);
      reflexivity.
  - destruct (class_distribution (prediction_stats w) !! predicted_class);
      reflexivity.
Qed.

Lemma update_statistics_total env predicted_class w :
  total_predictions (prediction_stats (update_statistics env predicted_class w).2)
  = (total_predictions (prediction_stats w) + 1)%nat.
Proof.
  rewrite update_statistics_unfold.
  by destruct (class_distribution (prediction_stats w) !! predicted_class).
Qed.

(** C4. After a call of [update_statistics], [predictions_today] is 1 when
    [last_prediction_time] was unset or its date lies strictly before the
    date the clock shows at the call, and one more than before
    otherwise. *)
Theorem update_statistics_predictions_today env predicted_class w :
  let today := dt_date (datetime_now env (clock_reads w)) in
  let before := prediction_stats w in
  let after := prediction_stats (update_statistics env predicted_class w).2 in
  predictions_today after =
    match last_prediction_time before with
    | None => 1%nat
    | Some last =>
        if date_lt (dt_date last) today then 1%nat
        else (predictions_today before + 1)%nat
    end.
Proof.
  simpl. rewrite update_statistics_unfold. unfold date_gt.
  by destruct (class_distribution (prediction_stats w) !! predicted_class).
Qed.

Lemma initial_stats_consistent : stats_consistent initial_stats.
Proof.
  split; [| split; [reflexivity | simpl; lia]].
  intros c Hc. unfold CLASS_NAMES in Hc.
  repeat (apply elem_of_cons in Hc as [-> | Hc]); [by eexists.. |].
  by apply elem_of_nil in Hc.
Qed.

(** A call with one of the four class names returns and keeps the
    counters in agreement. *)
Lemma update_statistics_consistent env class_name w :
  class_name ∈ CLASS_NAMES →
  stats_consistent (prediction_stats w) →
  ∃ w', update_statistics env class_name w = (Ok tt, w')
        ∧ stats_consistent (prediction_stats w').
Proof.
  intros Hc (Hkeys & Htotal & Htoday).
  rewrite update_statistics_unfold.
  destruct (Hkeys _ Hc) as [count Hcount]. rewrite Hcount.
  eexists. split; [reflexivity |].
  unfold stats_consistent, class_distribution_sum. cbv beta zeta.
  cbn [prediction_stats class_distribution total_predictions predictions_today].
  split; [| split].
  - intros c' Hc'. destruct (decide (class_name = c')) as [-> | Hne].
    + rewrite lookup_insert_eq. by eexists.
    + rewrite lookup_insert_ne by done. by apply Hkeys.
  - rewrite Htotal. unfold class_distribution_sum, CLASS_NAMES in *.
    cbn [fmap list_fmap sum_list sum_list_with class_distribution].
    repeat (apply elem_of_cons in Hc as [-> | Hc]);
      [simplify_map_eq; simpl; lia.. |].
    by apply elem_of_nil in Hc.
  - destruct (last_prediction_time (prediction_stats w));
      [destruct (date_gt _ _) |]; lia.
Qed.

(** C9. From the initial statistics, any sequence of [update_statistics]
    calls with class names among the four runs to its end, and then
    [total_predictions] is the sum of [class_distribution] over the
    classes and [predictions_today] is at most [total_predictions]. *)
Theorem update_statistics_invariant env (class_names : list string) w :
  prediction_stats w = initial_stats →
  Forall (λ class_name, class_name ∈ CLASS_NAMES) class_names →
  ∃ units w',
    mapM (update_statistics env) class_names w = (Ok units, w')
    ∧ total_predictions (prediction_stats w')
      = class_distribution_sum (prediction_stats w')
    ∧ (predictions_today (prediction_stats w')
       ≤ total_predictions (prediction_stats w'))%nat.
Proof.
  intros Hinit Hall.
  assert (stats_consistent (prediction_stats w)) as Hinv
    by (rewrite Hinit; apply initial_stats_consistent).
  clear Hinit.
  enough (∃ units w', mapM (update_statistics env) class_names w = (Ok units, w')
                      ∧ stats_consistent (prediction_stats w'))
    as (units & w' & Hrun & _ & Hsum & Hday) by eauto.
  revert w Hinv. induction Hall as [|c cs Hc _ IH]; intros w Hinv.
  - exists [], w. by split.
  - destruct (update_statistics_consistent env c w Hc Hinv) as (w1 & Hstep & Hinv1).
    destruct (IH w1 Hinv1) as (units & w' & Hrest & Hinv').
    exists (tt :: units), w'. split; [| done].
    simpl. unfold mbind, M_bind, bind. rewrite Hstep, Hrest. reflexivity.
Qed.

Lemma update_statistics_invariant_witness :
  ∃ units w',
    mapM (update_statistics (demo_env None)) ["glioma"; "notumor"; "glioma"] fresh_world
    = (Ok units, w')
    ∧ total_predictions (prediction_stats w')
      = class_distribution_sum (prediction_stats w')
    ∧ (predictions_today (prediction_stats w')
       ≤ total_predictions (prediction_stats w'))%nat.
Proof.
  apply update_statistics_invariant; [reflexivity |].
  repeat constructor; unfold CLASS_NAMES; set_solver.
Defined.

(** ** What a computation leaves of the world *)

Section Preserves.

(** [R w w']: what is kept, or only grows, from [w] to [w']. *)

Variable R : relation World.
Context `{!PreOrder R}.

Lemma preserves_ret {A} (a : A) : preserves R (ret a).
Proof. intros w. reflexivity. Qed.

Lemma preserves_raise {A} e : preserves R (@raise A e).
Proof. intros w. reflexivity. Qed.

Lemma preserves_lift {A} (r : Result A) : preserves R (lift r).
Proof. intros w. reflexivity. Qed.

Lemma preserves_bind {A B} (c : M A) (k : A → M B) :
  preserves R c → (∀ a, preserves R (k a)) → preserves R (c ≫= k).
Proof.
  intros Hc Hk w. unfold mbind, M_bind, bind.
  specialize (Hc w). destruct (c w) as [[a|e] w1]; [| exact Hc].
  etrans; [exact Hc | apply Hk].
Qed.

Lemma preserves_try_except {A} (c : M A) (h : exn → M A) :
  preserves R c → (∀ e, preserves R (h e)) → preserves R (try_except c h).
Proof.
  intros Hc Hh w. unfold try_except.
  specialize (Hc w). destruct (c w) as [[a|e] w1]; [exact Hc |].
  etrans; [exact Hc | apply Hh].
Qed.

Lemma preserves_mapM {A B} (f : A → M B) l :
  (∀ x, preserves R (f x)) → preserves R (mapM f l).
Proof.
  intros Hf. induction l as [|x l IH]; simpl.
  - apply preserves_ret.
  - apply preserves_bind; [apply Hf |]. intros y.
    apply preserves_bind; [apply IH |]. intros ys. apply preserves_ret.
Qed.

End Preserves.

#[local] Instance same_stats_preorder : PreOrder same_stats.
Proof.
  split; [intros w; reflexivity |].
  intros w1 w2 w3 H12 H23. unfold same_stats in *. congruence.
Qed.

#[local] Instance trace_grows_preorder : PreOrder trace_grows.
Proof.
  split; [intros w; unfold trace_grows; lia |].
  intros w1 w2 w3. unfold trace_grows. lia.
Qed.

Create HintDb kept.

(** Takes a goal [preserves R c] apart along the structure of [c]; the
    primitive steps are left to the hints of [kept]. *)
Ltac kept :=
  repeat (cbv beta;
          lazymatch goal with
          | |- PreOrder _ => apply _
          | |- ∀ _, _ => intros ?
          | |- preserves _ (ret _) => apply preserves_ret
          | |- preserves _ (mret _) => apply preserves_ret
          | |- preserves _ (lift _) => apply preserves_lift
          | |- preserves _ (raise _) => apply preserves_raise
          | |- preserves _ (_ ≫= _) => apply preserves_bind
          | |- preserves _ (mapM _ _) => apply preserves_mapM
          | |- preserves _ (try_except _ _) => apply preserves_try_except
          | |- preserves _ (match ?x with _ => _ end) => destruct x
          end);
  auto with kept.

Lemma same_stats_emit ev : preserves same_stats (emit ev).
Proof. intros w. reflexivity. Qed.

Lemma same_stats_now env : preserves same_stats (now env).
Proof. intros w. reflexivity. Qed.

Lemma same_stats_dirichlet env : preserves same_stats (np_random_dirichlet env).
Proof.
  intros w. unfold np_random_dirichlet.
  by destruct (dirichlet4 env (rng_draws w)) as [[[a b] c] d].
Qed.

#[local] Hint Resolve same_stats_emit same_stats_now same_stats_dirichlet : kept.

Lemma same_stats_call {A} fn (r : Result A) : preserves same_stats (call fn r).
Proof. unfold call. kept. Qed.

#[local] Hint Resolve same_stats_call : kept.

Lemma same_stats_preprocess env image :
  preserves same_stats (preprocess_for_inference env image).
Proof. unfold preprocess_for_inference. kept. Qed.

Lemma same_stats_select_top env probs : preserves same_stats (select_top env probs).
Proof. unfold select_top. kept. Qed.

#[local] Hint Resolve same_stats_preprocess same_stats_select_top : kept.

Lemma same_stats_branch env image :
  preserves same_stats (predict_image_branch env image).
Proof. unfold predict_image_branch, print. kept. Qed.

Lemma same_stats_probability_entry env probs ic :
  preserves same_stats (probability_entry env probs ic).
Proof. unfold probability_entry. kept. Qed.

#[local] Hint Resolve same_stats_branch same_stats_probability_entry : kept.

Lemma trace_grows_emit ev : preserves trace_grows (emit ev).
Proof. intros w. unfold trace_grows. simpl. lia. Qed.

Lemma trace_grows_now env : preserves trace_grows (now env).
Proof. intros w. unfold trace_grows. simpl. lia. Qed.

Lemma trace_grows_dirichlet env : preserves trace_grows (np_random_dirichlet env).
Proof.
  intros w. unfold np_random_dirichlet, trace_grows.
  destruct (dirichlet4 env (rng_draws w)) as [[[a b] c] d]. simpl. lia.
Qed.

Lemma trace_grows_get_stats : preserves trace_grows get_stats.
Proof. intros w. unfold trace_grows. simpl. lia. Qed.

Lemma trace_grows_modify_stats f : preserves trace_grows (modify_stats f).
Proof. intros w. unfold trace_grows. simpl. lia. Qed.

#[local] Hint Resolve trace_grows_emit trace_grows_now trace_grows_dirichlet
  trace_grows_get_stats trace_grows_modify_stats : kept.

Lemma trace_grows_call {A} fn (r : Result A) : preserves trace_grows (call fn r).
Proof. unfold call. kept. Qed.

#[local] Hint Resolve trace_grows_call : kept.

Lemma trace_grows_update_statistics env predicted_class :
  preserves trace_grows (update_statistics env predicted_class).
Proof. unfold update_statistics. kept. Qed.

Lemma trace_grows_select_top env probs : preserves trace_grows (select_top env probs).
Proof. unfold select_top. kept. Qed.

Lemma trace_grows_preprocess env image :
  preserves trace_grows (preprocess_for_inference env image).
Proof. unfold preprocess_for_inference. kept. Qed.

Lemma trace_grows_probability_entry env probs ic :
  preserves trace_grows (probability_entry env probs ic).
Proof. unfold probability_entry. kept. Qed.

#[local] Hint Resolve trace_grows_update_statistics trace_grows_select_top
  trace_grows_preprocess trace_grows_probability_entry : kept.

(** ** Predictor: the shape of its answer *)

(** A returned result comes from a [try] block that ran to its end. *)
Lemma predict_image_Some env image w r error w' :
  predict_image env image w = (Ok (Some r, error), w') →
  predict_image_try env image w = (Ok r, w') ∧ error = None.
Proof.
  unfold predict_image, try_except, print, emit, mbind, M_bind, bind, ret.
  destruct (predict_image_try env image w) as [[r0|e] w1]; simpl.
  - by intros [= -> <- <-].
  - discriminate.
Qed.

(** The statements of a [try] block that ran to its end. *)
Lemma predict_image_try_Ok env image w r w' :
  predict_image_try env image w = (Ok r, w') →
  ∃ probs predicted_idx wa wb,
    predict_image_branch env image w
    = (Ok (probs, predicted_idx, predicted_class r, confidence r), wa)
    ∧ update_statistics env (predicted_class r) wa = (Ok tt, wb)
    ∧ mapM (probability_entry env probs) (enumerate CLASS_NAMES) wb
      = (Ok (all_probabilities r), w')
    ∧ dict_getitem CLASS_DESCRIPTIONS (predicted_class r) = Ok (class_info r).
Proof.
  unfold predict_image_try. intros H.
  apply bind_Ok in H as ([[[probs idx] cls] conf] & wa & Hbranch & H).
  apply bind_Ok in H as ([] & wb & Hupd & H).
  apply bind_Ok in H as (entries & wc & Hentries & H).
  apply bind_Ok in H as (ci & wd & Hci & H).
  apply lift_Ok in Hci as [Hci ->]. apply ret_Ok in H as [-> ->].
  exists probs, idx, wa, wb. simpl. done.
Qed.

(** C6. [predict_image] always returns a pair; exactly one of its
    components is set.  When the [try] block raises, the pair is [None]
    and the text of the exception; when it runs to its end, the pair is
    the result and [None]. *)
Theorem predict_image_result_or_error env image w :
  ∃ result error w',
    predict_image env image w = (Ok (result, error), w')
    ∧ ((is_Some result ∧ error = None) ∨ (result = None ∧ is_Some error))
    ∧ (∀ e w1, predict_image_try env image w = (Raise e, w1) →
               result = None ∧ error = Some (str_exn e))
    ∧ (∀ r w1, predict_image_try env image w = (Ok r, w1) →
               result = Some r ∧ error = None).
Proof.
  unfold predict_image, try_except, print, emit, mbind, M_bind, bind, ret.
  destruct (predict_image_try env image w) as [[r|e] w1]; simpl.
  - exists (Some r), None, w1. split; [done |]. split; [left; eauto |].
    split; [discriminate |]. by intros r' w2 [= -> _].
  - eexists None, (Some (str_exn e)), _. split; [done |]. split; [right; eauto |].
    split; [| discriminate]. by intros e' w2 [= -> _].
Qed.

(** ** Predictor: statistics *)

(** A prediction that returns a result counts once. *)
Lemma predict_image_counts env image w r error w' :
  predict_image env image w = (Ok (Some r, error), w') →
  total_predictions (prediction_stats w')
  = (total_predictions (prediction_stats w) + 1)%nat.
Proof.
  intros H. apply predict_image_Some in H as [H _].
  apply predict_image_try_Ok in H as (probs & idx & wa & wb & Hbr & Hupd & Hentries & _).
  pose proof (same_stats_branch env image w) as Ha. rewrite Hbr in Ha.
  pose proof (update_statistics_total env (predicted_class r) wa) as Hb.
  rewrite Hupd in Hb.
  assert (preserves same_stats (mapM (probability_entry env probs) (enumerate CLASS_NAMES)))
    as Hc by kept.
  specialize (Hc wb). rewrite Hentries in Hc.
  unfold same_stats in *. simpl in *. congruence.
Qed.

(** A prediction that fails after [update_statistics] has run is counted
    all the same: with a model of three outputs, [probs[3]] raises in the
    comprehension that builds the result. *)
Example predict_image_failure_counted :
  let three := λ _ : ndarray,
    Ok {| dtype := float32; shape := [1; 3]%nat; data := [1; 2; 5]%Q |} in
  let out := predict_image (demo_env (Some three)) (black "L" (2, 2)%nat) fresh_world in
  out.1 = Ok (None, Some "index out of bounds")
  ∧ total_predictions (prediction_stats out.2) = 1%nat.
Proof. vm_compute. split; reflexivity. Qed.

Lemma predict_image_returns env image w :
  ∃ out w', predict_image env image w = (Ok out, w').
Proof.
  unfold predict_image, try_except, print, emit, mbind, M_bind, bind, ret.
  destruct (predict_image_try env image w) as [[r|e] w1]; simpl; eauto.
Qed.

(** C5. After N predictions made one after the other, each of which
    returned a result, [total_predictions] is its initial value plus N. *)
Theorem total_predictions_after_N env (N : nat) (images : list Image) w outs w' :
  length images = N →
  mapM (predict_image env) images w = (Ok outs, w') →
  Forall successful outs →
  total_predictions (prediction_stats w')
  = (total_predictions (prediction_stats w) + N)%nat.
Proof.
  intros <-. revert w outs w'.
  induction images as [|image images IH]; intros w outs w' Hrun Hall.
  - apply ret_Ok in Hrun as [_ ->]. simpl. lia.
  - simpl in Hrun.
    apply bind_Ok in Hrun as ([result error] & w1 & Hfirst & Hrun).
    apply bind_Ok in Hrun as (outs' & w2 & Hrest & Hret).
    apply ret_Ok in Hret as [-> ->].
    apply Forall_cons in Hall as [[r Hr] Hall]. simpl in Hr. subst result.
    apply predict_image_counts in Hfirst.
    rewrite (IH _ _ _ Hrest Hall), Hfirst. simpl. lia.
Qed.

Lemma total_predictions_after_N_witness :
  ∃ outs w',
    mapM (predict_image (demo_env None)) (replicate 3 (black "L" (2, 2)%nat)) fresh_world
    = (Ok outs, w')
    ∧ Forall successful outs
    ∧ total_predictions (prediction_stats w') = (0 + 3)%nat.
Proof.
  destruct (mapM (predict_image (demo_env None)) (replicate 3 (black "L" (2, 2)%nat))
              fresh_world) as [[outs|e] w'] eqn:Hrun; [| vm_compute in Hrun; discriminate].
  exists outs, w'. split; [reflexivity |].
  assert (Forall successful outs) as Hall.
  { vm_compute in Hrun. injection Hrun as <- _.
    repeat constructor; by eexists. }
  split; [exact Hall |].
  exact (total_predictions_after_N (demo_env None) 3
           (replicate 3 (black "L" (2, 2)%nat)) fresh_world outs w'
           eq_refl Hrun Hall).
Defined.

(** ** [argmax] *)

Example argmax_first_of_ties : argmax [1 # 4; 3 # 8; 3 # 8; 0]%Q = 1%nat.
Proof. reflexivity. Qed.

(** The index returned is the running best or lies in the part scanned. *)
Lemma argmax_from_range l i best besti :
  argmax_from l i best besti = besti
  ∨ (i ≤ argmax_from l i best besti < i + length l)%nat.
Proof.
  revert i best besti. induction l as [|x l IH]; intros i best besti; simpl.
  - by left.
  - destruct (Qle_bool x best).
    + destruct (IH (S i) best besti) as [-> | ?]; [by left | right; lia].
    + destruct (IH (S i) x i) as [-> | ?]; right; lia.
Qed.

(** Scanning only a prefix that contains the answer gives the same
    answer. *)
Lemma argmax_from_take l k i best besti :
  (besti < i)%nat →
  (argmax_from l i best besti < i + k)%nat →
  argmax_from (take k l) i best besti = argmax_from l i best besti.
Proof.
  revert k i best besti.
  induction l as [|x l IH]; intros k i best besti Hlt Hr.
  - by rewrite take_nil.
  - destruct k as [|k].
    + simpl take. simpl argmax_from at 1.
      destruct (argmax_from_range (x :: l) i best besti) as [-> | ?]; [done | lia].
    + simpl in *. destruct (Qle_bool x best); apply IH; lia.
Qed.

Lemma argmax_take l k :
  (argmax l < k)%nat → argmax (take k l) = argmax l.
Proof.
  destruct l as [|x l]; [by rewrite take_nil |].
  destruct k as [|k]; [lia |]. simpl. intros H.
  apply argmax_from_take; lia.
Qed.

(** The scan returns the position of the first greatest element: [pre]
    is the part already scanned, with its first greatest element [best]
    at [besti]. *)
Lemma argmax_from_spec (pre l : list Q) best besti :
  pre !! besti = Some best →
  (∀ j x, pre !! j = Some x → (x <= best)%Q) →
  (∀ j x, (j < besti)%nat → pre !! j = Some x → (x < best)%Q) →
  ∃ m, (pre ++ l)%list !! argmax_from l (length pre) best besti = Some m
       ∧ (∀ j x, (pre ++ l)%list !! j = Some x → (x <= m)%Q)
       ∧ (∀ j x, (j < argmax_from l (length pre) best besti)%nat →
                 (pre ++ l)%list !! j = Some x → (x < m)%Q).
Proof.
  revert pre best besti.
  induction l as [|y l IH]; intros pre best besti Hbest Hmax Hfirst.
  - rewrite app_nil_r. simpl. eauto.
  - pose proof (lookup_lt_Some _ _ _ Hbest) as Hlen.
    replace (pre ++ y :: l)%list with ((pre ++ [y]) ++ l)%list by (by rewrite <- app_assoc).
    simpl argmax_from.
    replace (S (length pre)) with (length (pre ++ [y])%list)
      by (rewrite length_app; simpl; lia).
    destruct (Qle_bool y best) eqn:Hy.
    + apply Qle_bool_iff in Hy. apply IH.
      * by rewrite lookup_app_l.
      * intros j x Hj. apply lookup_app_Some in Hj as [Hj | [Hge Hj]]; [eauto |].
        apply list_lookup_singleton_Some in Hj as [_ <-]. done.
      * intros j x Hj Hx. rewrite lookup_app_l in Hx by lia. eauto.
    + assert (best < y)%Q as Hlt.
      { apply Qnot_le_lt. intros Hle. apply Qle_bool_iff in Hle. congruence. }
      apply IH.
      * rewrite lookup_app_r by lia. by rewrite Nat.sub_diag.
      * intros j x Hj. apply lookup_app_Some in Hj as [Hj | [Hge Hj]].
        -- apply Qlt_le_weak. eapply Qle_lt_trans; eauto.
        -- apply list_lookup_singleton_Some in Hj as [_ <-]. apply Qle_refl.
      * intros j x Hj Hx. rewrite lookup_app_l in Hx by lia.
        eapply Qle_lt_trans; eauto.
Qed.

(** [argmax] is the position of the first greatest element. *)
Lemma argmax_spec (l : list Q) :
  l ≠ [] →
  ∃ m, l !! argmax l = Some m
       ∧ (∀ j x, l !! j = Some x → (x <= m)%Q)
       ∧ (∀ j x, (j < argmax l)%nat → l !! j = Some x → (x < m)%Q).
Proof.
  destruct l as [|x l]; [done |]. intros _.
  apply (argmax_from_spec [x] l x 0).
  - done.
  - intros j y Hj. apply list_lookup_singleton_Some in Hj as [_ <-]. apply Qle_refl.
  - intros j y Hj. lia.
Qed.

(** ** Reading floats out of an array *)

Lemma float_item_Ok len1_ok a i q :
  float_item len1_ok a i = Ok q →
  ∃ d rest,
    shape a = d :: rest ∧ (i < d)%nat
    ∧ take (prod_shape rest) (drop (i * prod_shape rest) (data a)) = [q].
Proof.
  unfold float_item, np_getitem.
  destruct (shape a) as [|d rest]; [discriminate |].
  destruct (i <? d)%nat eqn:Hi; [| discriminate].
  apply Nat.ltb_lt in Hi. unfold py_float. simpl.
  destruct (take _ _) as [|x [|y l]] eqn:Ht; [discriminate | | discriminate].
  destruct (_ || _); [| discriminate]. intros [= ->].
  exists d, rest. done.
Qed.

(** When the items 0 and 1 of an array both convert to floats, the array
    holds one number per index of its first axis, and [float(a[i])] is
    the [i]-th number. *)
Lemma float_item_flat len1_ok a q0 q1 :
  float_item len1_ok a 0 = Ok q0 →
  float_item len1_ok a 1 = Ok q1 →
  ∀ i q, float_item len1_ok a i = Ok q → data a !! i = Some q.
Proof.
  intros H0 H1 i q Hi.
  apply float_item_Ok in H0 as (d & rest & Hs & _ & H0).
  apply float_item_Ok in H1 as (d1 & rest1 & Hs1 & _ & H1).
  apply float_item_Ok in Hi as (d2 & rest2 & Hs2 & _ & Hi).
  rewrite Hs in Hs1, Hs2. injection Hs1 as <- <-. injection Hs2 as <- <-.
  assert (prod_shape rest = 1%nat) as Hn.
  { apply (f_equal length) in H0, H1.
    rewrite length_take, length_drop in H0, H1. simpl in H0, H1. lia. }
  rewrite Hn, Nat.mul_1_r in Hi.
  apply (f_equal (λ l, l !! 0%nat)) in Hi. simpl in Hi.
  rewrite lookup_take_lt, lookup_drop, Nat.add_0_r in Hi by lia. done.
Qed.

Lemma np_argmax_Ok a i :
  np_argmax a = Ok i → data a ≠ [] ∧ i = argmax (data a).
Proof.
  unfold np_argmax. destruct (data a); [discriminate |]. by intros [= <-].
Qed.

Lemma select_top_Ok env probs w out w' :
  select_top env probs w = (Ok out, w') →
  ∃ idx cls conf,
    out = (probs, idx, cls, conf)
    ∧ np_argmax probs = Ok idx
    ∧ CLASS_NAMES !! idx = Some cls
    ∧ float_item (float_len1_ok env) probs idx = Ok conf.
Proof.
  unfold select_top. intros H.
  apply bind_Ok in H as (idx & w1 & Hidx & H). apply lift_Ok in Hidx as [Hidx ->].
  apply bind_Ok in H as (cls & w2 & Hcls & H). apply lift_Ok in Hcls as [Hcls ->].
  apply bind_Ok in H as (conf & w3 & Hconf & H). apply lift_Ok in Hconf as [Hconf ->].
  apply ret_Ok in H as [-> ->].
  exists idx, cls, conf.
  unfold list_getitem in Hcls.
  destruct (CLASS_NAMES !! idx); simplify_eq. done.
Qed.

(** Whichever branch ran, what it hands on was selected by
    [select_top]. *)
Lemma predict_image_branch_Ok env image w probs idx cls conf w' :
  predict_image_branch env image w = (Ok (probs, idx, cls, conf), w') →
  np_argmax probs = Ok idx
  ∧ CLASS_NAMES !! idx = Some cls
  ∧ float_item (float_len1_ok env) probs idx = Ok conf.
Proof.
  unfold predict_image_branch. intros H.
  assert (∃ p w1, select_top env p w1 = (Ok (probs, idx, cls, conf), w'))
    as (p & w1 & Hsel).
  { destruct (model env) as [model_predict|].
    - apply bind_Ok in H as (? & ? & _ & H). apply bind_Ok in H as (? & ? & _ & H).
      apply bind_Ok in H as (? & ? & _ & H). eauto.
    - apply bind_Ok in H as (? & ? & _ & H). apply bind_Ok in H as (? & ? & _ & H).
      apply bind_Ok in H as (? & ? & _ & H). eauto. }
  apply select_top_Ok in Hsel as (idx' & cls' & conf' & [= <- <- <- <-] & ?). done.
Qed.

(** The entries of [all_probabilities]: one per class, named after it,
    holding [float(probs[i])]. *)
Lemma probability_entries_Ok env probs (l : list (nat * string)) w outs w' :
  mapM (probability_entry env probs) l w = (Ok outs, w') →
  Forall2 (λ ic out, out.1 = ic.2
                     ∧ float_item (float_len1_ok env) probs ic.1
                       = Ok (probability out.2)) l outs.
Proof.
  revert w outs w'. induction l as [|[i c] l IH]; intros w outs w' H.
  - apply ret_Ok in H as [-> _]. constructor.
  - simpl in H. apply bind_Ok in H as ([c' e] & w1 & Hentry & H).
    apply bind_Ok in H as (outs' & w2 & Hrest & H). apply ret_Ok in H as [-> ->].
    constructor; [| by eapply IH].
    apply bind_Ok in Hentry as (p & wa & Hp & Hentry). apply lift_Ok in Hp as [Hp ->].
    apply bind_Ok in Hentry as (x & wb & _ & Hentry).
    apply bind_Ok in Hentry as (pct & wc & _ & Hentry).
    apply bind_Ok in Hentry as (ci & wd & _ & Hentry).
    apply ret_Ok in Hentry as [[= -> ->] _]. done.
Qed.

(** ** Predictor: the top class *)

(** A returned result reports the first four numbers of the probability
    array, and the index selected lies among them. *)
Lemma predict_image_reports env image w r w' :
  predict_image_try env image w = (Ok r, w') →
  ∃ probs,
    (all_probabilities r).*1 = CLASS_NAMES
    ∧ reported_probabilities r = take 4 (data probs)
    ∧ length (reported_probabilities r) = 4%nat
    ∧ (argmax (data probs) < 4)%nat
    ∧ CLASS_NAMES !! argmax (data probs) = Some (predicted_class r)
    ∧ data probs !! argmax (data probs) = Some (confidence r).
Proof.
  intros H.
  apply predict_image_try_Ok in H as (probs & idx & wa & wb & Hbr & _ & Hentries & _).
  apply predict_image_branch_Ok in Hbr as (Hidx & Hcls & Hconf).
  apply np_argmax_Ok in Hidx as [_ ->].
  apply probability_entries_Ok in Hentries.
  change (enumerate CLASS_NAMES)
    with [(0%nat, "glioma"); (1%nat, "meningioma"); (2%nat, "notumor");
          (3%nat, "pituitary")] in Hentries.
  unfold reported_probabilities.
  destruct (all_probabilities r) as [|[n0 e0] [|[n1 e1] [|[n2 e2] [|[n3 e3] [|? ?]]]]];
    repeat match goal with
           | H : Forall2 _ _ _ |- _ => inversion H; clear H; subst
           end.
  simpl in *. destruct_and!.
  pose proof (float_item_flat _ _ _ _ ltac:(eassumption) ltac:(eassumption)) as Hflat.
  repeat match goal with
         | H : float_item _ _ _ = Ok _ |- _ => apply Hflat in H
         end.
  exists probs. subst.
  destruct (data probs) as [|a [|b [|c [|d rest]]]]; simplify_eq/=.
  repeat split; try done.
  by apply lookup_lt_Some in Hcls.
Qed.

(** C1. When [predict_image] returns a result, the class it names is the
    class at the argmax index of the four reported probabilities (the
    first index holding their greatest value), and the confidence is the
    probability at that index. *)
Theorem predict_image_argmax env image w r error w' :
  predict_image env image w = (Ok (Some r, error), w') →
  let probs := reported_probabilities r in
  (all_probabilities r).*1 = CLASS_NAMES
  ∧ length probs = 4%nat
  ∧ CLASS_NAMES !! argmax probs = Some (predicted_class r)
  ∧ probs !! argmax probs = Some (confidence r)
  ∧ (∀ j p, probs !! j = Some p → (p <= confidence r)%Q)
  ∧ (∀ j p, (j < argmax probs)%nat → probs !! j = Some p → (p < confidence r)%Q).
Proof.
  intros H. apply predict_image_Some in H as [H _].
  apply predict_image_reports in H
    as (probs & Hnames & Hrep & Hlen & Hlt & Hcls & Hconf).
  simpl. rewrite Hrep in *. rewrite argmax_take by done.
  assert (take 4 (data probs) !! argmax (data probs) = Some (confidence r)) as Hat
    by (by rewrite lookup_take_lt).
  split; [done |]. split; [done |]. split; [done |]. split; [done |].
  destruct (argmax_spec (take 4 (data probs))) as (m & Hm & Hmax & Hfirst).
  { intros Hnil. by rewrite Hnil in Hlen. }
  rewrite argmax_take in Hm, Hfirst by done.
  rewrite Hat in Hm. injection Hm as <-. done.
Qed.

Lemma predict_image_argmax_witness :
  ∃ r error w',
    predict_image (demo_env (Some demo_model)) (black "L" (2, 2)%nat) fresh_world
    = (Ok (Some r, error), w')
    ∧ predicted_class r = "notumor"
    ∧ CLASS_NAMES !! argmax (reported_probabilities r) = Some (predicted_class r)
    ∧ reported_probabilities r !! argmax (reported_probabilities r)
      = Some (confidence r).
Proof.
  destruct (predict_image (demo_env (Some demo_model)) (black "L" (2, 2)%nat) fresh_world)
    as [[[[r|] error]|e] w'] eqn:Hrun;
    [| vm_compute in Hrun; discriminate..].
  exists r, error, w'. split; [reflexivity |].
  split; [vm_compute in Hrun; by injection Hrun as <- _ |].
  destruct (predict_image_argmax _ _ _ _ _ _ Hrun) as (_ & _ & Hcls & Hconf & _).
  by split.
Defined.

(** ** Preprocessor *)

Lemma is_u8_range q : is_u8 q = true → (0 <= q)%Q ∧ (q <= 255)%Q.
Proof.
  unfold is_u8. rewrite !andb_true_iff.
  intros [[Hden Hlo] Hhi].
  apply Pos.eqb_eq in Hden. apply Z.leb_le in Hlo, Hhi.
  destruct q as [n d]. simpl in *. subst d. unfold Qle. simpl. lia.
Qed.

Lemma scale_range q : (0 <= q)%Q ∧ (q <= 255)%Q → (0 <= q / 255)%Q ∧ (q / 255 <= 1)%Q.
Proof.
  intros [Hlo Hhi]. split.
  - apply Qle_shift_div_l; [reflexivity |]. by rewrite Qmult_0_l.
  - apply Qle_shift_div_r; [reflexivity |]. by rewrite Qmult_1_l.
Qed.

(** What validity means for an RGB image. *)
Lemma valid_image_RGB i :
  valid_image i = true → mode i = "RGB" →
  length (getdata i) = (fst (size i) * snd (size i))%nat
  ∧ Forall (λ px, length px = 3%nat ∧ Forall (λ q, (0 <= q)%Q ∧ (q <= 255)%Q) px)
           (getdata i).
Proof.
  unfold valid_image. intros Hv Hm. rewrite Hm in Hv.
  change (getbands "RGB") with (Some 3%nat) in Hv.
  change (wide_mode "RGB") with false in Hv. simpl orb in Hv.
  rewrite !andb_true_iff in Hv. destruct Hv as [[[_ _] Hlen] Hpx].
  apply Nat.eqb_eq in Hlen. split; [done |].
  apply Forall_forall. intros px Hin.
  rewrite forallb_forall in Hpx. apply list_elem_of_In in Hin.
  specialize (Hpx px Hin). apply andb_true_iff in Hpx as [Hl Hs].
  apply Nat.eqb_eq in Hl. split; [done |].
  apply Forall_forall. intros q Hq. apply is_u8_range.
  rewrite forallb_forall in Hs. apply Hs. by apply list_elem_of_In.
Qed.

Lemma length_concat_uniform {A} (l : list (list A)) n :
  Forall (λ px, length px = n) l → length (concat l) = (n * length l)%nat.
Proof.
  induction 1 as [|px l Hpx _ IH]; simpl; [lia |].
  rewrite length_app, IH, Hpx. lia.
Qed.

(** The array made of a valid RGB image. *)
Lemma np_array_of_image_RGB i :
  valid_image i = true → mode i = "RGB" →
  let a := np_array_of_image i in
  dtype a = float32
  ∧ shape a = [snd (size i); fst (size i); 3%nat]
  ∧ length (data a) = (3 * (fst (size i) * snd (size i)))%nat
  ∧ Forall (λ q, (0 <= q)%Q ∧ (q <= 255)%Q) (data a).
Proof.
  intros Hv Hm. destruct (valid_image_RGB i Hv Hm) as [Hlen Hpx].
  unfold np_array_of_image. rewrite Hm.
  change (getbands "RGB") with (Some 3%nat). simpl.
  split; [done |]. split; [done |]. split.
  - rewrite <- Hlen. rewrite (length_concat_uniform _ 3); [lia |].
    eapply Forall_impl; [exact Hpx |]. by intros px [? _].
  - apply Forall_concat. eapply Forall_impl; [exact Hpx |]. by intros px [_ ?].
Qed.

(** C3. Given Pillow's conversion and resizing, the preprocessor turns
    every valid image, whatever its mode and size, into an array of shape
    (1, 224, 224, 3) and dtype float32 whose elements, one per position,
    all lie between 0 and 1. *)
Theorem preprocess_for_inference_output env image w :
  Pillow_ok env →
  valid_image image = true →
  ∃ img_array w',
    preprocess_for_inference env image w = (Ok img_array, w')
    ∧ shape img_array = [1; 224; 224; 3]%nat
    ∧ dtype img_array = float32
    ∧ length (data img_array) = prod_shape (shape img_array)
    ∧ Forall (λ x, (0 <= x)%Q ∧ (x <= 1)%Q) (data img_array).
Proof.
  intros [Hconvert Hresize] Hv.
  assert (∃ rgb w1,
            (if bool_decide (mode image ≠ "RGB")
             then call "Image.convert" (Image_convert env image "RGB")
             else ret image) w = (Ok rgb, w1)
            ∧ valid_image rgb = true ∧ mode rgb = "RGB")
    as (rgb & w1 & Hrgb & Hvrgb & Hmrgb).
  { case_bool_decide as Hmode.
    - destruct (Hconvert image Hv) as (rgb & Hc & Hvr & Hmr & _).
      eexists rgb, _. unfold call, emit, lift, mbind, M_bind, bind.
      rewrite Hc. done.
    - exists image, w. split; [done |]. split; [done |].
      by destruct (decide (mode image = "RGB")). }
  destruct (Hresize rgb IMG_SIZE Hvrgb) as (resized & Hr & Hvres & Hmres & Hsize);
    [simpl; lia.. |].
  rewrite Hmrgb in Hmres.
  destruct (np_array_of_image_RGB resized Hvres Hmres) as (Hd & Hs & Hl & Hrange).
  rewrite Hsize in Hs, Hl. unfold IMG_SIZE in Hs, Hl. cbn [fst snd] in Hs, Hl.
  eexists _, _. split.
  { unfold preprocess_for_inference. apply bind_Ok. eexists rgb, w1.
    split; [exact Hrgb |]. unfold call, emit, lift, mbind, M_bind, bind, ret.
    rewrite Hr. reflexivity. }
  cbn [shape dtype data np_expand_dims0 np_truediv]. rewrite Hs.
  split; [done |]. split; [done |]. split.
  - rewrite length_fmap, Hl. unfold prod_shape. cbn [foldr]. lia.
  - apply Forall_fmap. eapply Forall_impl; [exact Hrange |].
    intros q Hq. by apply scale_range.
Qed.

(** The black images of the demonstration codec are valid. *)
Lemma valid_black m sz :
  is_Some (getbands m) → (0 < sz.1)%nat → (0 < sz.2)%nat →
  valid_image (black m sz) = true.
Proof.
  intros [nb Hnb] Hw Hh. unfold valid_image, black. cbn [mode size getdata].
  rewrite Hnb. cbn [default]. rewrite !andb_true_iff. repeat split.
  - by apply Nat.ltb_lt.
  - by apply Nat.ltb_lt.
  - apply Nat.eqb_eq. by rewrite length_replicate.
  - apply forallb_forall. intros px Hin.
    apply list_elem_of_In, elem_of_replicate in Hin as [-> _].
    rewrite length_replicate, Nat.eqb_refl. simpl.
    apply orb_true_iff. right. apply forallb_forall. intros q Hq.
    by apply list_elem_of_In, elem_of_replicate in Hq as [-> _].
Qed.

Lemma valid_image_mode i : valid_image i = true → is_Some (getbands (mode i)).
Proof. unfold valid_image. destruct (getbands (mode i)); [eauto | discriminate]. Qed.

Lemma valid_image_size i :
  valid_image i = true → (0 < (size i).1)%nat ∧ (0 < (size i).2)%nat.
Proof.
  unfold valid_image. destruct (getbands (mode i)); [| discriminate].
  rewrite !andb_true_iff. intros [[[Hw Hh] _] _].
  by apply Nat.ltb_lt in Hw, Hh.
Qed.

Lemma demo_env_Pillow_ok mdl : Pillow_ok (demo_env mdl).
Proof.
  split.
  - intros i Hv. exists (black "RGB" (size i)).
    destruct (valid_image_size i Hv). split; [done |].
    split; [| done]. apply valid_black; [by eexists | done..].
  - intros i sz Hv Hw Hh. exists (black (mode i) sz). split; [done |].
    split; [| done]. apply valid_black; [by apply valid_image_mode | done..].
Qed.

Lemma preprocess_for_inference_output_witness :
  ∃ img_array w',
    preprocess_for_inference (demo_env None) (black "L" (5, 7)%nat) fresh_world
    = (Ok img_array, w')
    ∧ shape img_array = [1; 224; 224; 3]%nat
    ∧ dtype img_array = float32
    ∧ length (data img_array) = prod_shape (shape img_array)
    ∧ Forall (λ x, (0 <= x)%Q ∧ (x <= 1)%Q) (data img_array).
Proof.
  apply preprocess_for_inference_output.
  - apply demo_env_Pillow_ok.
  - vm_compute. reflexivity.
Defined.

(** ** Every run of the predictor leaves an event *)

Lemma emits_emit ev : emits (emit ev).
Proof. intros w. simpl. lia. Qed.

Lemma emits_bind {A B} (c : M A) (k : A → M B) :
  emits c → (∀ a, preserves trace_grows (k a)) → emits (c ≫= k).
Proof.
  intros Hc Hk w. unfold mbind, M_bind, bind.
  specialize (Hc w). destruct (c w) as [[a|e] w1]; [| exact Hc].
  specialize (Hk a w1). unfold trace_grows in Hk. simpl in *. lia.
Qed.

Lemma emits_call {A} fn (r : Result A) : emits (call fn r).
Proof. unfold call. apply emits_bind; [apply emits_emit |]. kept. Qed.

Lemma emits_try_except {A} (c : M A) (h : exn → M A) :
  emits c → (∀ e, preserves trace_grows (h e)) → emits (try_except c h).
Proof.
  intros Hc Hh w. unfold try_except.
  specialize (Hc w). destruct (c w) as [[a|e] w1]; [exact Hc |].
  specialize (Hh e w1). unfold trace_grows in Hh. simpl in *. lia.
Qed.

Lemma emits_preprocess env image : emits (preprocess_for_inference env image).
Proof.
  unfold preprocess_for_inference. case_bool_decide.
  - apply emits_bind; [apply emits_call |]. kept.
  - intros w. change (ret image ≫= ?k) with (k image).
    revert w. apply emits_bind; [apply emits_call |]. kept.
Qed.

Lemma emits_branch env image : emits (predict_image_branch env image).
Proof.
  unfold predict_image_branch. destruct (model env).
  - apply emits_bind; [apply emits_preprocess |]. kept.
  - apply emits_bind; [apply emits_emit |]. kept.
Qed.

Lemma predict_image_leaves_trace env image w :
  trace (predict_image env image w).2 ≠ trace w.
Proof.
  assert (emits (predict_image env image)) as H.
  { unfold predict_image, predict_image_try, print.
    apply emits_try_except; [| kept].
    apply emits_bind; [| kept].
    apply emits_bind; [apply emits_branch |]. kept. }
  specialize (H w). intros Heq. rewrite Heq in H. lia.
Qed.

(** ** The probabilities, in exact arithmetic *)

Lemma sum_scaled (es : list Q) (t : Q) :
  (foldr Qplus 0 ((λ e, e / t) <$> es) == foldr Qplus 0 es / t)%Q.
Proof.
  induction es as [|e es IH]; simpl.
  - unfold Qdiv. ring.
  - rewrite IH. unfold Qdiv. ring.
Qed.

Lemma sum_positive (es : list Q) :
  es ≠ [] → Forall (λ e, (0 < e)%Q) es → (0 < foldr Qplus 0 es)%Q.
Proof.
  intros Hne Hpos. destruct Hpos as [|e es He Hes]; [done |]. clear Hne. simpl.
  assert (0 <= foldr Qplus 0 es)%Q as Hrest.
  { induction Hes as [|x l Hx _ IH]; simpl; [apply Qle_refl |].
    apply Qlt_le_weak in Hx. replace 0%Q with (0 + 0)%Q by reflexivity.
    by apply Qplus_le_compat. }
  replace 0%Q with (0 + 0)%Q by reflexivity. by apply Qplus_lt_le_compat.
Qed.

(** Without rounding, the values of a softmax add up to one. *)
Lemma tf_nn_softmax_sum env a :
  (∀ x, (0 < exp32 env x)%Q) → data a ≠ [] →
  (foldr Qplus 0 (data (tf_nn_softmax env a)) == 1)%Q.
Proof.
  intros Hexp Hne. unfold tf_nn_softmax. cbn [data]. rewrite sum_scaled.
  assert (0 < foldr Qplus 0 (exp32 env <$> data a))%Q as Hpos.
  { apply sum_positive.
    - by destruct (data a).
    - apply Forall_fmap, Forall_forall. intros x _. apply Hexp. }
  unfold Qdiv. apply Qmult_inv_r. intros Hz. rewrite Hz in Hpos.
  by apply Qlt_irrefl in Hpos.
Qed.

(** A model whose output has one dimension never yields a result:
    [predictions[0]] is then a scalar, and indexing it raises. *)
Lemma predict_image_1d_no_result env model_predict image w r error w' :
  model env = Some model_predict →
  (∀ a p, model_predict a = Ok p → ndim p = 1%nat) →
  predict_image env image w ≠ (Ok (Some r, error), w').
Proof.
  intros Hmodel H1d H. apply predict_image_Some in H as [H _].
  apply predict_image_try_Ok in H as (probs & idx & wa & wb & Hbr & _).
  unfold predict_image_branch in Hbr. rewrite Hmodel in Hbr.
  apply bind_Ok in Hbr as (a & w1 & _ & Hbr).
  apply bind_Ok in Hbr as (p & w2 & Hcall & Hbr).
  apply bind_Ok in Hcall as ([] & w3 & _ & Hcall). apply lift_Ok in Hcall as [Hp _].
  apply H1d in Hp.
  apply bind_Ok in Hbr as (probs' & w4 & Hprobs & Hsel).
  rewrite Hp in Hprobs. simpl in Hprobs. apply lift_Ok in Hprobs as [Hprobs _].
  apply select_top_Ok in Hsel as (? & ? & ? & _ & _ & _ & Hconf).
  apply float_item_Ok in Hconf as (d & rest & Hshape & _).
  unfold np_getitem, ndim in *. destruct (shape p) as [|d0 [|? ?]]; try discriminate.
  destruct (0 <? d0)%nat; [| discriminate].
  injection Hprobs as <-. discriminate.
Qed.

Example predict_image_1d_example :
  (predict_image
     (demo_env (Some (λ _, Ok {| dtype := float32; shape := [4]%nat;
                                 data := [1 # 10; 2 # 10; 3 # 10; 4 # 10]%Q |})))
     (black "L" (2, 2)%nat) fresh_world).1
  = Ok (None, Some "invalid index to scalar variable.").
Proof. vm_compute. reflexivity. Qed.

(** ** The handler on a failed prediction *)

(** An exception with a message is reported with status 500. *)
Example predict_inference_error :
  let failing := λ _ : ndarray, Raise (Exception "RuntimeError" "out of memory") in
  (predict (demo_env (Some failing)) (upload "scan.png") fresh_world).1
  = Ok (error_json "out of memory", 500%nat).
Proof. vm_compute. reflexivity. Qed.

(** An exception whose message is empty makes [error] the empty string,
    which [if error:] takes for success; the handler then fails on the
    missing result and its outer [except] answers. *)
Example predict_empty_error_message :
  let failing := λ _ : ndarray, Raise (Exception "RuntimeError" "") in
  (predict (demo_env (Some failing)) (upload "scan.png") fresh_world).1
  = Ok (error_json "'NoneType' object does not support item assignment", 500%nat).
Proof. vm_compute. reflexivity. Qed.

(** * Further properties *)

(** ** The upload filter, continued *)

Lemma chars_app s1 s2 : Str.chars (s1 +:+ s2) = (Str.chars s1 ++ Str.chars s2)%list.
Proof.
  unfold Str.chars. induction s1 as [|c s1 IH]; simpl; [done |]. by rewrite IH.
Qed.

Lemma of_chars_chars s : Str.of_chars (Str.chars s) = s.
Proof. apply string_of_list_ascii_of_string. Qed.

Lemma chars_of_chars l : Str.chars (Str.of_chars l) = l.
Proof. apply list_ascii_of_string_of_list_ascii. Qed.

(** Splitting at the last separator when what follows it has none. *)
Lemma rsplit_last_app sep h t :
  sep ∉ t → Str.rsplit_last sep (h ++ sep :: t)%list = Some (h, t).
Proof.
  intros Ht. induction h as [|c h IH]; simpl.
  - apply rsplit_last_None in Ht. rewrite Ht. by rewrite Ascii.eqb_refl.
  - by rewrite IH.
Qed.

Lemma lower_char_idemp c : Str.lower_char (Str.lower_char c) = Str.lower_char c.
Proof. by destruct c as [[] [] [] [] [] [] [] []]. Qed.

Lemma lower_char_dot c : Ascii.eqb (Str.lower_char c) "." = Ascii.eqb c ".".
Proof. by destruct c as [[] [] [] [] [] [] [] []]. Qed.

Lemma lower_idemp s : Str.lower (Str.lower s) = Str.lower s.
Proof.
  unfold Str.lower. rewrite chars_of_chars. f_equal.
  rewrite <- list_fmap_compose. apply list_fmap_ext. intros _ c _. apply lower_char_idemp.
Qed.

Lemma rsplit_last_lower l :
  Str.rsplit_last "." (map Str.lower_char l)
  = (λ ht, (map Str.lower_char ht.1, map Str.lower_char ht.2))
      <$> Str.rsplit_last "." l.
Proof.
  induction l as [|c l IH]; cbn [Str.rsplit_last map]; [done |].
  rewrite IH. destruct (Str.rsplit_last "." l) as [[h t]|]; cbn [fmap option_fmap option_map fst snd map]; [done |].
  rewrite lower_char_dot. by destruct (Ascii.eqb c ".").
Qed.

Lemma contains_lower s : Str.contains "." (Str.lower s) = Str.contains "." s.
Proof.
  unfold Str.contains, Str.lower. rewrite chars_of_chars.
  induction (Str.chars s) as [|c l IH]; cbn [existsb map]; [done |].
  rewrite IH. f_equal.
  rewrite Ascii.eqb_sym, lower_char_dot. apply Ascii.eqb_sym.
Qed.

(** X1. The filter does not depend on the case of any letter of the
    name: a name and its lower-cased form are both accepted or both
    rejected. *)
Theorem allowed_file_lower filename_ :
  allowed_file (Str.lower filename_) = allowed_file filename_.
Proof.
  unfold allowed_file. rewrite contains_lower. f_equal.
  unfold Str.rsplit1, Str.lower at 1. rewrite chars_of_chars, rsplit_last_lower.
  destruct (Str.rsplit_last "." (Str.chars filename_)) as [[h t]|]; simpl.
  - fold (Str.lower (Str.of_chars t)).
    replace (Str.of_chars (map Str.lower_char t)) with (Str.lower (Str.of_chars t))
      by (unfold Str.lower; by rewrite chars_of_chars).
    by rewrite lower_idemp.
  - done.
Qed.

(** X2. Only what follows the last dot counts: for any stem, with or
    without dots of its own, and any extension without a dot, the name
    [stem.ext] is accepted exactly when the lower-cased extension is one
    of the six. *)
Theorem allowed_file_last_extension stem ext :
  "."%char ∉ Str.chars ext →
  allowed_file (stem +:+ "." +:+ ext)
  = bool_decide (Str.lower ext ∈ allowed_extensions).
Proof.
  intros Hext. unfold allowed_file.
  assert (Str.chars (stem +:+ "." +:+ ext)
          = (Str.chars stem ++ "."%char :: Str.chars ext)%list) as Hchars
    by (by rewrite !chars_app).
  assert (Str.contains "." (stem +:+ "." +:+ ext) = true) as ->.
  { apply contains_spec. rewrite Hchars. apply elem_of_app. right. by left. }
  unfold Str.rsplit1. rewrite Hchars, rsplit_last_app by done. simpl.
  by rewrite of_chars_chars.
Qed.

Lemma allowed_file_last_extension_witness :
  allowed_file ("scan.png" +:+ "." +:+ "exe") = false
  ∧ allowed_file ("archive.tar" +:+ "." +:+ "JPG") = true.
Proof.
  assert (∀ ext, Str.contains "." ext = false → "."%char ∉ Str.chars ext) as Hdot.
  { intros ext H. rewrite <- contains_spec. by rewrite H. }
  split.
  - rewrite (allowed_file_last_extension "scan.png" "exe") by (by apply Hdot).
    vm_compute. reflexivity.
  - rewrite (allowed_file_last_extension "archive.tar" "JPG") by (by apply Hdot).
    vm_compute. reflexivity.
Defined.

(** ** Statistics tracker, continued *)

(** X3. A class name that has no count makes [update_statistics] raise
    [KeyError], but only at its last statement: the histogram is left as
    it was, while the total, the count of the day and the time of the
    last prediction have already been updated. *)
Theorem update_statistics_unknown_class env predicted_class w :
  class_distribution (prediction_stats w) !! predicted_class = None →
  ∃ w',
    update_statistics env predicted_class w = (Raise (KeyError predicted_class), w')
    ∧ class_distribution (prediction_stats w') = class_distribution (prediction_stats w)
    ∧ total_predictions (prediction_stats w')
      = (total_predictions (prediction_stats w) + 1)%nat
    ∧ (1 ≤ predictions_today (prediction_stats w'))%nat
    ∧ last_prediction_time (prediction_stats w')
      = Some (datetime_now env (clock_reads w)).
Proof.
  intros Hnone. rewrite update_statistics_unfold, Hnone.
  eexists. split; [reflexivity |]. cbv beta zeta.
  cbn [prediction_stats class_distribution total_predictions predictions_today
       last_prediction_time].
  repeat split.
  destruct (last_prediction_time (prediction_stats w));
    [destruct (date_gt _ _) |]; lia.
Qed.

Lemma update_statistics_unknown_class_witness :
  ∃ w',
    update_statistics (demo_env None) "healthy" fresh_world
    = (Raise (KeyError "healthy"), w')
    ∧ class_distribution (prediction_stats w') = class_distribution initial_stats
    ∧ total_predictions (prediction_stats w') = 1%nat.
Proof.
  destruct (update_statistics_unknown_class (demo_env None) "healthy" fresh_world)
    as (w' & Hrun & Hdist & Htotal & _); [reflexivity |].
  exists w'. by repeat split.
Defined.

Lemma occurrences_cons c k l :
  occurrences k (c :: l)
  = ((if decide (c = k) then 1 else 0) + occurrences k l)%nat.
Proof.
  unfold occurrences. rewrite filter_cons. by destruct (decide (c = k)).
Qed.

(** X4. The histogram counts occurrences: after a sequence of calls with
    class names that all have a count, the sequence has run to its end,
    every count has grown by the number of times its class was named, no
    key has been added or removed, and the total has grown by the length
    of the sequence. *)
Theorem update_statistics_histogram env (class_names : list string) w :
  (∀ c, c ∈ class_names → is_Some (class_distribution (prediction_stats w) !! c)) →
  ∃ units w',
    mapM (update_statistics env) class_names w = (Ok units, w')
    ∧ (∀ k, class_distribution (prediction_stats w') !! k
            = (λ n, (n + occurrences k class_names)%nat)
                <$> class_distribution (prediction_stats w) !! k)
    ∧ total_predictions (prediction_stats w')
      = (total_predictions (prediction_stats w) + length class_names)%nat.
Proof.
  revert w. induction class_names as [|c cs IH]; intros w Hkeys.
  - exists [], w. split; [done |]. split; [| simpl; lia].
    intros k. destruct (_ !! k); simpl; [f_equal; unfold occurrences; simpl; lia | done].
  - destruct (Hkeys c) as [count Hcount]; [by left |].
    pose proof (update_statistics_unfold env c w) as Hstep.
    cbv zeta in Hstep. rewrite Hcount in Hstep.
    match type of Hstep with _ = (_, ?w1) => set (w1' := w1) in * end.
    destruct (IH w1') as (units & w' & Hrest & Hdist & Htotal).
    { intros c' Hc'. subst w1'. cbn [prediction_stats class_distribution total_predictions]. destruct (decide (c = c')) as [-> | Hne].
      - rewrite lookup_insert_eq. by eexists.
      - rewrite lookup_insert_ne by done. apply Hkeys. by right. }
    exists (tt :: units), w'. split; [| split].
    + simpl. unfold mbind, M_bind, bind. rewrite Hstep, Hrest. reflexivity.
    + intros k. rewrite Hdist. subst w1'. cbn [prediction_stats class_distribution total_predictions]. rewrite occurrences_cons.
      destruct (decide (c = k)) as [-> | Hne].
      * rewrite lookup_insert_eq, Hcount. simpl. f_equal. lia.
      * rewrite lookup_insert_ne by done.
        destruct (_ !! k); simpl; [f_equal; lia | done].
    + rewrite Htotal. subst w1'. cbn [prediction_stats class_distribution total_predictions length]. lia.
Qed.

Lemma update_statistics_histogram_witness :
  ∃ units w',
    mapM (update_statistics (demo_env None)) ["notumor"; "glioma"; "notumor"] fresh_world
    = (Ok units, w')
    ∧ class_distribution (prediction_stats w') !! "notumor" = Some 2%nat
    ∧ class_distribution (prediction_stats w') !! "pituitary" = Some 0%nat
    ∧ class_distribution (prediction_stats w') !! "healthy" = None
    ∧ total_predictions (prediction_stats w') = 3%nat.
Proof.
  destruct (update_statistics_histogram (demo_env None)
              ["notumor"; "glioma"; "notumor"] fresh_world)
    as (units & w' & Hrun & Hdist & Htotal).
  { intros c Hc. repeat (apply elem_of_cons in Hc as [-> | Hc]); [by eexists.. |].
    by apply elem_of_nil in Hc. }
  exists units, w'. split; [exact Hrun |].
  rewrite !Hdist, Htotal. by repeat split.
Defined.

Lemma date_lt_irrefl d : date_lt d d = false.
Proof. unfold date_lt. rewrite !Z.ltb_irrefl, !Z.eqb_refl. reflexivity. Qed.

(** Calls made on the day of the last prediction each add one to the
    count of the day. *)
Lemma update_statistics_same_day_adds env d (class_names : list string) w last :
  (∀ c, c ∈ class_names → is_Some (class_distribution (prediction_stats w) !! c)) →
  (∀ k, (k < length class_names)%nat →
        dt_date (datetime_now env (clock_reads w + k)) = d) →
  last_prediction_time (prediction_stats w) = Some last →
  dt_date last = d →
  ∃ units w',
    mapM (update_statistics env) class_names w = (Ok units, w')
    ∧ predictions_today (prediction_stats w')
      = (predictions_today (prediction_stats w) + length class_names)%nat.
Proof.
  revert w last. induction class_names as [|c cs IH]; intros w last Hkeys Hclock Hlast Hd.
  - exists [], w. split; [done | simpl; lia].
  - destruct (Hkeys c) as [count Hcount]; [by left |].
    pose proof (update_statistics_unfold env c w) as Hstep.
    cbv zeta in Hstep. rewrite Hcount, Hlast in Hstep.
    assert (dt_date (datetime_now env (clock_reads w)) = d) as Hnow.
    { rewrite <- (Hclock 0%nat) by (simpl; lia). by rewrite Nat.add_0_r. }
    unfold date_gt in Hstep. rewrite Hnow, Hd, date_lt_irrefl in Hstep.
    match type of Hstep with _ = (_, ?w1) => set (w1' := w1) in * end.
    destruct (IH w1' (datetime_now env (clock_reads w))) as (units & w' & Hrest & Htoday).
    + intros c' Hc'. subst w1'. cbn [prediction_stats class_distribution].
      destruct (decide (c = c')) as [-> | Hne].
      * rewrite lookup_insert_eq. by eexists.
      * rewrite lookup_insert_ne by done. apply Hkeys. by right.
    + intros k Hk. subst w1'. cbn [clock_reads].
      replace (S (clock_reads w) + k)%nat with (clock_reads w + S k)%nat by lia.
      apply Hclock. simpl. lia.
    + reflexivity.
    + exact Hnow.
    + exists (tt :: units), w'. split.
      * simpl. unfold mbind, M_bind, bind. rewrite Hstep, Hrest. reflexivity.
      * rewrite Htoday. subst w1'. cbn [prediction_stats predictions_today length]. lia.
Qed.

(** X5. The count of the day counts the calls of the day: when the last
    prediction, if any, was made before day [d] and the clock shows day
    [d] at each call of a non-empty sequence of calls (with class names
    that have a count), then afterwards [predictions_today] is the length
    of the sequence, whatever it was before. *)
Theorem update_statistics_day_count env d (class_names : list string) w :
  class_names ≠ [] →
  (∀ c, c ∈ class_names → is_Some (class_distribution (prediction_stats w) !! c)) →
  (∀ k, (k < length class_names)%nat →
        dt_date (datetime_now env (clock_reads w + k)) = d) →
  (∀ last, last_prediction_time (prediction_stats w) = Some last →
           date_lt (dt_date last) d = true) →
  ∃ units w',
    mapM (update_statistics env) class_names w = (Ok units, w')
    ∧ predictions_today (prediction_stats w') = length class_names.
Proof.
  intros Hne Hkeys Hclock Hbefore.
  destruct class_names as [|c cs]; [done |]. clear Hne.
  destruct (Hkeys c) as [count Hcount]; [by left |].
  pose proof (update_statistics_unfold env c w) as Hstep.
  cbv zeta in Hstep. rewrite Hcount in Hstep.
  assert (dt_date (datetime_now env (clock_reads w)) = d) as Hnow.
  { rewrite <- (Hclock 0%nat) by (simpl; lia). by rewrite Nat.add_0_r. }
  assert (match last_prediction_time (prediction_stats w) with
          | Some last =>
              if date_gt (dt_date (datetime_now env (clock_reads w))) (dt_date last)
              then 1%nat else (predictions_today (prediction_stats w) + 1)%nat
          | None => 1%nat
          end = 1%nat) as Hone.
  { destruct (last_prediction_time (prediction_stats w)) as [last|]; [| done].
    unfold date_gt. by rewrite Hnow, (Hbefore last eq_refl). }
  rewrite Hone in Hstep.
  match type of Hstep with _ = (_, ?w1) => set (w1' := w1) in * end.
  destruct (update_statistics_same_day_adds env d cs w1' (datetime_now env (clock_reads w)))
    as (units & w' & Hrest & Htoday).
  - intros c' Hc'. subst w1'. cbn [prediction_stats class_distribution].
    destruct (decide (c = c')) as [-> | Hne].
    + rewrite lookup_insert_eq. by eexists.
    + rewrite lookup_insert_ne by done. apply Hkeys. by right.
  - intros k Hk. subst w1'. cbn [clock_reads].
    replace (S (clock_reads w) + k)%nat with (clock_reads w + S k)%nat by lia.
    apply Hclock. simpl. lia.
  - reflexivity.
  - exact Hnow.
  - exists (tt :: units), w'. split.
    + simpl. unfold mbind, M_bind, bind. rewrite Hstep, Hrest. reflexivity.
    + rewrite Htoday. subst w1'. cbn [prediction_stats predictions_today length]. lia.
Qed.

Lemma update_statistics_day_count_witness :
  ∃ units w',
    mapM (update_statistics (demo_env None)) ["glioma"; "pituitary"] fresh_world
    = (Ok units, w')
    ∧ predictions_today (prediction_stats w') = 2%nat.
Proof.
  apply (update_statistics_day_count (demo_env None) (Date 2024 1 1)).
  - discriminate.
  - intros c Hc. repeat (apply elem_of_cons in Hc as [-> | Hc]); [by eexists.. |].
    by apply elem_of_nil in Hc.
  - intros k Hk. simpl in Hk. destruct k as [|[|k]]; [reflexivity.. | lia].
  - intros last Hlast. discriminate.
Defined.

(** ** Arrays, continued *)

Lemma argmax_lt (l : list Q) : l ≠ [] → (argmax l < length l)%nat.
Proof.
  intros Hne. destruct (argmax_spec l Hne) as (m & Hm & _).
  by apply lookup_lt_Some in Hm.
Qed.

(** Items of a vector [[n]]. *)
Lemma np_getitem_vector a n i q :
  shape a = [n] → (i < n)%nat → data a !! i = Some q →
  np_getitem a i = Ok {| dtype := dtype a; shape := []; data := [q] |}.
Proof.
  intros Hs Hi Hq. unfold np_getitem. rewrite Hs.
  apply Nat.ltb_lt in Hi. rewrite Hi. do 2 f_equal.
  change (prod_shape []) with 1%nat. rewrite Nat.mul_1_r.
  by rewrite (drop_S _ _ _ Hq).
Qed.

Lemma float_item_vector len1_ok a n i q :
  shape a = [n] → (i < n)%nat → data a !! i = Some q →
  float_item len1_ok a i = Ok q.
Proof.
  intros Hs Hi Hq. unfold float_item.
  by rewrite (np_getitem_vector a n i q).
Qed.


(** ** Predictor: running forward *)

Lemma class_name_described class_name :
  class_name ∈ CLASS_NAMES → is_Some (CLASS_DESCRIPTIONS !! class_name).
Proof.
  intros Hc. unfold CLASS_NAMES in Hc.
  repeat (apply elem_of_cons in Hc as [-> | Hc]); [by eexists.. |].
  by apply elem_of_nil in Hc.
Qed.

(** An entry of [all_probabilities] for an index inside a vector. *)
Lemma probability_entry_vector env probs n i class_name q w :
  shape probs = [n] → (i < n)%nat → data probs !! i = Some q →
  class_name ∈ CLASS_NAMES →
  ∃ ci, CLASS_DESCRIPTIONS !! class_name = Some ci
        ∧ probability_entry env probs (i, class_name) w
          = (Ok (class_name,
                 {| probability := q; percentage := (q * 100)%Q; info := ci |}), w).
Proof.
  intros Hs Hi Hq Hc. destruct (class_name_described _ Hc) as [ci Hci].
  exists ci. split; [done |]. unfold probability_entry.
  unfold mbind, M_bind, bind, lift, ret, dict_getitem.
  rewrite (float_item_vector _ probs n i q), (np_getitem_vector probs n i q), Hci by done.
  reflexivity.
Qed.


(** [select_top] on a non-empty vector whose greatest element is among
    the first four. *)
Lemma select_top_vector env probs n w :
  shape probs = [n] → length (data probs) = n → data probs ≠ [] →
  (argmax (data probs) < 4)%nat →
  ∃ cls conf,
    CLASS_NAMES !! argmax (data probs) = Some cls
    ∧ data probs !! argmax (data probs) = Some conf
    ∧ select_top env probs w = (Ok (probs, argmax (data probs), cls, conf), w).
Proof.
  intros Hs Hlen Hne Hidx.
  destruct (lookup_lt_is_Some_2 CLASS_NAMES (argmax (data probs))) as [cls Hcls];
    [done |].
  pose proof (argmax_lt _ Hne) as Hlt.
  destruct (lookup_lt_is_Some_2 (data probs) (argmax (data probs))) as [conf Hconf];
    [done |].
  exists cls, conf. split; [done |]. split; [done |].
  unfold select_top, mbind, M_bind, bind, lift, ret, np_argmax, list_getitem.
  destruct (data probs) as [|x l] eqn:Hdata; [done |]. rewrite <- Hdata in *.
  rewrite Hcls, (float_item_vector _ probs n _ conf) by (done || lia).
  reflexivity.
Qed.

Lemma update_statistics_Ok env class_name w :
  is_Some (class_distribution (prediction_stats w) !! class_name) →
  ∃ w', update_statistics env class_name w = (Ok tt, w')
        ∧ total_predictions (prediction_stats w')
          = (total_predictions (prediction_stats w) + 1)%nat.
Proof.
  intros [count Hcount]. rewrite update_statistics_unfold, Hcount.
  eexists. split; reflexivity.
Qed.

Ltac class_name := unfold CLASS_NAMES; repeat first [by left | right].

(** How [predict_image] ends once its branch has produced a vector of
    at least four probabilities. *)
Lemma predict_image_finish env image w probs idx cls conf wa n :
  predict_image_branch env image w = (Ok (probs, idx, cls, conf), wa) →
  CLASS_NAMES !! idx = Some cls →
  has_class_counts (prediction_stats wa) →
  shape probs = [n] → (4 ≤ n)%nat → length (data probs) = n →
  ∃ r wb,
    update_statistics env cls wa = (Ok tt, wb)
    ∧ predict_image env image w = (Ok (Some r, None), wb)
    ∧ predicted_class r = cls ∧ confidence r = conf
    ∧ reported_probabilities r = take 4 (data probs).
Proof.
  intros Hbr Hcls Hcounts Hs Hn Hlen.
  assert (cls ∈ CLASS_NAMES) as Hin by (by eapply list_elem_of_lookup_2).
  destruct (update_statistics_Ok env cls wa (Hcounts _ Hin)) as (wb & Hupd & _).
  destruct (class_name_described _ Hin) as [ci Hci].
  destruct (data probs) as [|a [|b [|c [|d rest]]]] eqn:Hdata;
    try (simpl in Hlen; lia).
  destruct (probability_entry_vector env probs n 0 "glioma" a wb)
    as (c0 & _ & H0); [done | lia | by rewrite Hdata | class_name |].
  destruct (probability_entry_vector env probs n 1 "meningioma" b wb)
    as (c1 & _ & H1); [done | lia | by rewrite Hdata | class_name |].
  destruct (probability_entry_vector env probs n 2 "notumor" c wb)
    as (c2 & _ & H2); [done | lia | by rewrite Hdata | class_name |].
  destruct (probability_entry_vector env probs n 3 "pituitary" d wb)
    as (c3 & _ & H3); [done | lia | by rewrite Hdata | class_name |].
  exists {| predicted_class := cls; confidence := conf;
            all_probabilities :=
              [("glioma", {| probability := a; percentage := (a * 100)%Q; info := c0 |});
               ("meningioma", {| probability := b; percentage := (b * 100)%Q; info := c1 |});
               ("notumor", {| probability := c; percentage := (c * 100)%Q; info := c2 |});
               ("pituitary", {| probability := d; percentage := (d * 100)%Q; info := c3 |})];
            class_info := ci |}, wb.
  split; [exact Hupd |]. split; [| done].
  unfold predict_image, try_except, predict_image_try.
  unfold mbind, M_bind. unfold bind at 1 2. rewrite Hbr.
  unfold bind at 1. rewrite Hupd.
  change (enumerate CLASS_NAMES)
    with [(0%nat, "glioma"); (1%nat, "meningioma"); (2%nat, "notumor");
          (3%nat, "pituitary")].
  cbn [mapM]. unfold mbind, M_bind, bind, lift, ret, dict_getitem.
  rewrite H0, H1, H2, H3, Hci. reflexivity.
Qed.

Lemma update_statistics_trace env class_name w :
  trace (update_statistics env class_name w).2 = EvCall "datetime.now" :: trace w
  ∧ rng_draws (update_statistics env class_name w).2 = rng_draws w.
Proof.
  rewrite update_statistics_unfold.
  by destruct (class_distribution (prediction_stats w) !! class_name).
Qed.

(** X6. Without a model, [predict_image] returns a result for every
    image, provided every class has a count: the probabilities reported
    are the four numbers drawn, one draw is consumed, and the image is not
    looked at (the only events are the print, the draw and the clock
    reading). *)
Theorem predict_image_fallback env image w :
  model env = None →
  has_class_counts (prediction_stats w) →
  ∃ r w',
    predict_image env image w = (Ok (Some r, None), w')
    ∧ (let '(a, b, c, d) := dirichlet4 env (rng_draws w) in
       reported_probabilities r = [a; b; c; d])
    ∧ rng_draws w' = S (rng_draws w)
    ∧ trace w' = EvCall "datetime.now" :: EvCall "np.random.dirichlet"
                 :: EvPrint "Using dummy model" :: trace w.
Proof.
  intros Hmodel Hcounts.
  destruct (dirichlet4 env (rng_draws w)) as [[[a b] c] d] eqn:Hdraw.
  set (probs := {| dtype := float64; shape := [4%nat]; data := [a; b; c; d] |}).
  set (wa := {| prediction_stats := prediction_stats w;
                clock_reads := clock_reads w;
                rng_draws := S (rng_draws w);
                trace := EvCall "np.random.dirichlet"
                         :: EvPrint "Using dummy model" :: trace w |}).
  destruct (select_top_vector env probs 4 wa) as (cls & conf & Hcls & Hconf & Hsel);
    [done | done | done | by apply (argmax_lt [a; b; c; d]) |].
  assert (predict_image_branch env image w
          = (Ok (probs, argmax (data probs), cls, conf), wa)) as Hbr.
  { unfold predict_image_branch. rewrite Hmodel.
    unfold print, emit, np_random_dirichlet, mbind, M_bind, bind, lift.
    cbn [rng_draws]. rewrite Hdraw. exact Hsel. }
  destruct (predict_image_finish env image w probs _ cls conf wa 4 Hbr Hcls)
    as (r & wb & Hupd & Hrun & _ & _ & Hrep); [done | done | lia | done |].
  exists r, wb. split; [exact Hrun |]. split; [exact Hrep |].
  destruct (update_statistics_trace env cls wa) as [Htrace Hrng].
  rewrite Hupd in Htrace, Hrng. by split.
Qed.

Lemma predict_image_fallback_witness :
  ∃ r w',
    predict_image (demo_env None) (black "CMYK" (3, 1)%nat) fresh_world
    = (Ok (Some r, None), w')
    ∧ reported_probabilities r = [1 # 10; 2 # 10; 4 # 10; 3 # 10]%Q
    ∧ rng_draws w' = 1%nat.
Proof.
  destruct (predict_image_fallback (demo_env None) (black "CMYK" (3, 1)%nat) fresh_world)
    as (r & w' & Hrun & Hrep & Hrng & _).
  - reflexivity.
  - intros c Hc. repeat (apply elem_of_cons in Hc as [-> | Hc]); [by eexists.. |].
    by apply elem_of_nil in Hc.
  - exists r, w'. by repeat split.
Defined.

(** The preprocessor succeeds on valid images. *)
Lemma preprocess_for_inference_Ok env image w :
  Pillow_ok env → valid_image image = true →
  ∃ img_array w', preprocess_for_inference env image w = (Ok img_array, w')
                  ∧ prediction_stats w' = prediction_stats w.
Proof.
  intros [Hconvert Hresize] Hv.
  assert (∃ img_array w', preprocess_for_inference env image w = (Ok img_array, w'))
    as (a & w' & Hrun).
  { unfold preprocess_for_inference, call, emit, lift, ret, mbind, M_bind, bind.
    case_bool_decide.
    - destruct (Hconvert image Hv) as (rgb & -> & Hvr & _ & _).
      destruct (Hresize rgb IMG_SIZE Hvr) as (res & -> & _); [simpl; lia.. |]. eauto.
    - destruct (Hresize image IMG_SIZE Hv) as (res & -> & _); [simpl; lia.. |]. eauto. }
  exists a, w'. split; [done |].
  pose proof (same_stats_preprocess env image w) as Hs. by rewrite Hrun in Hs.
Qed.

(** The probabilities made of a model output with two dimensions. *)
Lemma softmax_row env p rows k w :
  shape p = [rows; k] → (0 < rows)%nat → length (data p) = (rows * k)%nat →
  ∃ probs,
    (if (ndim p =? 2)%nat then
       row ← lift (np_getitem p 0);
       ret (tf_nn_softmax env row)
     else lift (np_getitem p 0)) w = (Ok probs, w)
    ∧ shape probs = [k] ∧ length (data probs) = k
    ∧ data probs
      = data (tf_nn_softmax env
                {| dtype := dtype p; shape := [k]; data := take k (data p) |}).
Proof.
  intros Hs Hrows Hlen. unfold ndim, np_getitem. rewrite Hs.
  apply Nat.ltb_lt in Hrows. rewrite Hrows. cbn [length Nat.eqb].
  unfold mbind, M_bind, bind, lift, ret.
  change (prod_shape [k]) with (k * 1)%nat. rewrite Nat.mul_1_r. cbn [Nat.mul drop].
  eexists. split; [reflexivity |]. split; [done |]. split; [| done].
  unfold tf_nn_softmax. cbn [data]. rewrite !length_fmap, length_take, drop_0, Hlen.
  apply Nat.ltb_lt in Hrows. apply Nat.min_l. nia.
Qed.

(** The branch of [predict_image] when a model is loaded, the
    preprocessor succeeds and the model answers. *)
Lemma predict_image_branch_model env model_predict image w img_array wa p :
  model env = Some model_predict →
  preprocess_for_inference env image w = (Ok img_array, wa) →
  model_predict img_array = Ok p →
  predict_image_branch env image w
  = (probs ← (if (ndim p =? 2)%nat then
                row ← lift (np_getitem p 0);
                ret (tf_nn_softmax env row)
              else lift (np_getitem p 0));
     select_top env probs) (emit (EvCall "model.predict") wa).2.
Proof.
  intros Hmodel Hpre Hp. unfold predict_image_branch. rewrite Hmodel.
  unfold mbind at 1, M_bind at 1, bind at 1. rewrite Hpre.
  unfold call, mbind at 1, M_bind at 1, bind at 1.
  unfold mbind at 1, M_bind at 1, bind at 1. unfold emit at 1, lift at 1.
  rewrite Hp. reflexivity.
Qed.

(** X7. With a model whose output has two dimensions and four columns,
    [predict_image] returns a result for every valid image (given
    Pillow's contract and a count for every class): the probabilities
    reported are the softmax of the first row of the model's output, and
    the prediction is counted once. *)
Theorem predict_image_four_logits env model_predict image w :
  model env = Some model_predict →
  Pillow_ok env → valid_image image = true →
  has_class_counts (prediction_stats w) →
  (∀ a, ∃ p rows, model_predict a = Ok p ∧ shape p = [rows; 4%nat]
                  ∧ (0 < rows)%nat ∧ length (data p) = (rows * 4)%nat) →
  ∃ r w' img_array p,
    predict_image env image w = (Ok (Some r, None), w')
    ∧ (preprocess_for_inference env image w).1 = Ok img_array
    ∧ model_predict img_array = Ok p
    ∧ reported_probabilities r
      = data (tf_nn_softmax env
                {| dtype := dtype p; shape := [4%nat]; data := take 4 (data p) |})
    ∧ total_predictions (prediction_stats w')
      = (total_predictions (prediction_stats w) + 1)%nat.
Proof.
  intros Hmodel Hpil Hv Hcounts Hout.
  destruct (preprocess_for_inference_Ok env image w Hpil Hv) as (a & wa & Hpre & Hst).
  destruct (Hout a) as (p & rows & Hp & Hs & Hrows & Hlen).
  pose proof (predict_image_branch_model env _ image w a wa p Hmodel Hpre Hp) as Hbr.
  set (wm := (emit (EvCall "model.predict") wa).2) in *.
  destruct (softmax_row env p rows 4 wm Hs Hrows Hlen) as (probs & Hrow & Hsp & Hlp & Hdp).
  assert (data probs ≠ []) as Hne by (intros Hnil; by rewrite Hnil in Hlp).
  destruct (select_top_vector env probs 4 wm Hsp Hlp Hne) as (cls & conf & Hcls & _ & Hsel).
  { pose proof (argmax_lt _ Hne). lia. }
  unfold mbind at 1, M_bind at 1, bind at 1 in Hbr. rewrite Hrow, Hsel in Hbr.
  destruct (predict_image_finish env image w probs _ cls conf wm 4 Hbr Hcls)
    as (r & wb & Hupd & Hrun & _ & _ & Hrep); [| done | lia | done |].
  { subst wm. cbn [emit snd prediction_stats]. by rewrite Hst. }
  exists r, wb, a, p. split; [exact Hrun |]. split; [by rewrite Hpre |].
  split; [exact Hp |]. split.
  - rewrite Hrep, <- Hdp. apply take_ge. lia.
  - pose proof (update_statistics_total env cls wm) as Ht. rewrite Hupd in Ht.
    cbn [snd] in Ht. rewrite Ht. subst wm. cbn [emit snd prediction_stats].
    by rewrite Hst.
Qed.

Lemma predict_image_four_logits_witness :
  ∃ r w',
    predict_image (demo_env (Some demo_model)) (black "RGBA" (4, 4)%nat) fresh_world
    = (Ok (Some r, None), w')
    ∧ reported_probabilities r = [2 # 34; 5 # 34; 26 # 34; 1 # 34]%Q
    ∧ total_predictions (prediction_stats w') = 1%nat.
Proof.
  destruct (predict_image_four_logits (demo_env (Some demo_model)) demo_model
              (black "RGBA" (4, 4)%nat) fresh_world)
    as (r & w' & a & p & Hrun & _ & Hp & Hrep & Htotal).
  - reflexivity.
  - apply demo_env_Pillow_ok.
  - vm_compute. reflexivity.
  - intros c Hc. repeat (apply elem_of_cons in Hc as [-> | Hc]); [by eexists.. |].
    by apply elem_of_nil in Hc.
  - intros a. eexists _, 1%nat. split; [reflexivity |]. split; [reflexivity |].
    split; [lia | reflexivity].
  - exists r, w'. split; [exact Hrun |]. split; [| exact Htotal].
    rewrite Hrep. injection Hp as <-. vm_compute. reflexivity.
Defined.





(** X9. With a model whose output has one dimension, [predictions[0]] is
    a number, not a vector: [predict_image] returns the error "invalid
    index to scalar variable." for every valid image, and the statistics
    are left as they were. *)
Theorem predict_image_1d_output env model_predict image w :
  model env = Some model_predict →
  Pillow_ok env → valid_image image = true →
  (∀ a, ∃ p d, model_predict a = Ok p ∧ shape p = [d]
               ∧ (0 < d)%nat ∧ length (data p) = d) →
  ∃ w',
    predict_image env image w
    = (Ok (None, Some "invalid index to scalar variable."), w')
    ∧ prediction_stats w' = prediction_stats w.
Proof.
  intros Hmodel Hpil Hv Hout.
  destruct (preprocess_for_inference_Ok env image w Hpil Hv) as (a & wa & Hpre & Hst).
  destruct (Hout a) as (p & d & Hp & Hs & Hd & Hlen).
  pose proof (predict_image_branch_model env _ image w a wa p Hmodel Hpre Hp) as Hbr.
  set (wm := (emit (EvCall "model.predict") wa).2) in *.
  assert (predict_image_branch env image w
          = (Raise (IndexError "invalid index to scalar variable."), wm)) as Hraise.
  { rewrite Hbr. unfold ndim, np_getitem. rewrite Hs.
    apply Nat.ltb_lt in Hd. rewrite Hd. cbn [length Nat.eqb].
    destruct (data p) as [|x l] eqn:Hdata.
    { simpl in Hlen. subst d. discriminate. }
    reflexivity. }
  eexists. split.
  - unfold predict_image, try_except, predict_image_try.
    unfold mbind, M_bind. unfold bind at 1 2. rewrite Hraise. reflexivity.
  - subst wm. cbn [emit snd prediction_stats ret print]. exact Hst.
Qed.

Lemma predict_image_1d_output_witness :
  ∃ w',
    predict_image (demo_env (Some demo_model_1d)) (black "L" (2, 2)%nat) fresh_world
    = (Ok (None, Some "invalid index to scalar variable."), w')
    ∧ prediction_stats w' = initial_stats.
Proof.
  apply (predict_image_1d_output (demo_env (Some demo_model_1d))
           demo_model_1d (black "L" (2, 2)%nat) fresh_world).
  - reflexivity.
  - apply demo_env_Pillow_ok.
  - vm_compute. reflexivity.
  - intros a. eexists _, 4%nat. split; [reflexivity |]. split; [reflexivity |].
    split; [lia | reflexivity].
Defined.

(** X10. What Pillow or the model raises comes back as the error string
    and leaves the statistics alone: when a model is loaded and either
    the preprocessor raises [e], or it succeeds and the model raises [e],
    [predict_image] returns [(None, str(e))], has printed the error, and
    [prediction_stats] is what it was. *)
Theorem predict_image_inference_error env model_predict image w e :
  model env = Some model_predict →
  ((preprocess_for_inference env image w).1 = Raise e
   ∨ ∃ img_array, (preprocess_for_inference env image w).1 = Ok img_array
                  ∧ model_predict img_array = Raise e) →
  ∃ w',
    predict_image env image w = (Ok (None, Some (str_exn e)), w')
    ∧ prediction_stats w' = prediction_stats w
    ∧ head (trace w') = Some (EvPrint ("Prediction error: " +:+ str_exn e)).
Proof.
  intros Hmodel Hfail.
  assert (∃ wa, predict_image_branch env image w = (Raise e, wa)
                ∧ prediction_stats wa = prediction_stats w) as (wa & Hbr & Hst).
  { pose proof (same_stats_preprocess env image w) as Hs.
    unfold predict_image_branch. rewrite Hmodel.
    unfold mbind at 1, M_bind at 1, bind at 1.
    destruct (preprocess_for_inference env image w) as [[a|e'] w1] eqn:Hpre;
      simpl in Hfail, Hs.
    - destruct Hfail as [[=] | (a' & [= <-] & Hm)].
      unfold call, emit, lift, mbind, M_bind, bind. rewrite Hm.
      eexists. split; [reflexivity | exact Hs].
    - destruct Hfail as [[= ->] | (a' & [=] & _)].
      eexists. split; [reflexivity | exact Hs]. }
  eexists. split; [| split].
  - unfold predict_image, try_except, predict_image_try.
    unfold mbind, M_bind. unfold bind at 1 2. rewrite Hbr. reflexivity.
  - exact Hst.
  - reflexivity.
Qed.

Lemma predict_image_inference_error_witness :
  (∃ w', predict_image (demo_env_no_convert (Some demo_model))
           (black "L" (2, 2)%nat) fresh_world
         = (Ok (None, Some "conversion not supported"), w')
         ∧ prediction_stats w' = initial_stats)
  ∧ (∃ w', predict_image (demo_env (Some demo_model_failing))
             (black "L" (2, 2)%nat) fresh_world
           = (Ok (None, Some "out of memory"), w')
           ∧ prediction_stats w' = initial_stats).
Proof.
  split.
  - destruct (predict_image_inference_error (demo_env_no_convert (Some demo_model))
                demo_model (black "L" (2, 2)%nat) fresh_world
                (ValueError "conversion not supported"))
      as (w' & Hrun & Hst & _); [reflexivity | left; reflexivity |].
    exists w'. by split.
  - destruct (predict_image_inference_error (demo_env (Some demo_model_failing))
                demo_model_failing (black "L" (2, 2)%nat) fresh_world
                (Exception "ResourceExhaustedError" "out of memory"))
      as (w' & Hrun & Hst & _); [reflexivity | |].
    + destruct (preprocess_for_inference_Ok (demo_env (Some demo_model_failing))
                  (black "L" (2, 2)%nat) fresh_world)
        as (a & wa & Hpre & _);
        [apply demo_env_Pillow_ok | vm_compute; reflexivity |].
      right. exists a. split; [by rewrite Hpre | reflexivity].
    + exists w'. by split.
Defined.

(** ** Predictor: what a result holds *)







(** X12. A prediction that returns a result has added one to the count
    of the predicted class and to no other, has left the keys of the
    histogram as they were, and has recorded a time of last prediction. *)
Theorem predict_image_counts_class env image w r error w' :
  predict_image env image w = (Ok (Some r, error), w') →
  ∃ count,
    class_distribution (prediction_stats w) !! predicted_class r = Some count
    ∧ class_distribution (prediction_stats w')
      = <[predicted_class r := (count + 1)%nat]> (class_distribution (prediction_stats w))
    ∧ is_Some (last_prediction_time (prediction_stats w')).
Proof.
  intros H. apply predict_image_Some in H as [H _].
  apply predict_image_try_Ok in H as (probs & idx & wa & wb & Hbr & Hupd & Hentries & _).
  pose proof (same_stats_branch env image w) as Ha. rewrite Hbr in Ha.
  assert (preserves same_stats (mapM (probability_entry env probs) (enumerate CLASS_NAMES)))
    as Hc by kept.
  specialize (Hc wb). rewrite Hentries in Hc.
  unfold same_stats in Ha, Hc. cbn [snd] in Ha, Hc.
  rewrite update_statistics_unfold in Hupd. cbv zeta in Hupd. rewrite Ha in Hupd.
  destruct (class_distribution (prediction_stats w) !! predicted_class r)
    as [count|]; [| discriminate].
  injection Hupd as <-. exists count. rewrite Hc.
  cbn [prediction_stats class_distribution last_prediction_time]. by repeat split.
Qed.

Lemma predict_image_counts_class_witness :
  ∃ r error w',
    predict_image (demo_env (Some demo_model)) (black "L" (2, 2)%nat) fresh_world
    = (Ok (Some r, error), w')
    ∧ class_distribution (prediction_stats w')
      = <["notumor" := 1%nat]> (class_distribution initial_stats).
Proof.
  destruct (predict_image (demo_env (Some demo_model)) (black "L" (2, 2)%nat) fresh_world)
    as [[[[r|] error]|e] w'] eqn:Hrun;
    [| vm_compute in Hrun; discriminate..].
  exists r, error, w'. split; [reflexivity |].
  destruct (predict_image_counts_class _ _ _ _ _ _ Hrun) as (count & Hcount & Hdist & _).
  assert (predicted_class r = "notumor") as Hcls
    by (vm_compute in Hrun; by injection Hrun as <- _).
  rewrite Hcls in Hcount, Hdist. rewrite Hdist.
  change (prediction_stats fresh_world) with initial_stats in *.
  assert (count = 0%nat) as -> by (vm_compute in Hcount; by injection Hcount).
  reflexivity.
Defined.

(** ** The handler of [POST /predict], step by step *)

#[local] Instance untouched_preorder : PreOrder untouched.
Proof.
  split.
  - intros w. by repeat split.
  - intros w1 w2 w3 (? & ? & ?) (? & ? & ?). unfold untouched. repeat split; congruence.
Qed.

Lemma untouched_emit ev : preserves untouched (emit ev).
Proof. intros w. by repeat split. Qed.

#[local] Hint Resolve untouched_emit : kept.

Lemma untouched_call {A} fn (r : Result A) : preserves untouched (call fn r).
Proof. unfold call. kept. Qed.

#[local] Hint Resolve untouched_call : kept.

(** Opening an upload uses neither the statistics, nor the clock, nor
    the random generator. *)
Lemma untouched_open_upload env file : preserves untouched (open_upload env file).
Proof. unfold open_upload. kept. Qed.

(** A refusal by [open_upload] is a 400 that quotes the exception of
    [Image.open] or of [verify]. *)
Lemma open_upload_inr env file w response w' :
  open_upload env file w = (Ok (inr response), w') →
  ∃ e, response = (error_json ("Invalid image file: " +:+ str_exn e), 400%nat)
       ∧ (Image_open env (stream file) = Raise e
          ∨ ∃ image, Image_open env (stream file) = Ok image
                     ∧ Image_verify env image = Raise e).
Proof.
  unfold open_upload, try_except, call, emit, lift, ret, mbind, M_bind, bind.
  destruct (Image_open env (stream file)) as [image|e] eqn:Hopen.
  - destruct (Image_verify env image) as [[]|e] eqn:Hverify.
    + discriminate.
    + intros [= <- _]. exists e. split; [done |]. right. eauto.
  - intros [= <- _]. exists e. split; [done |]. by left.
Qed.

Lemma same_stats_image_to_base64 env image :
  preserves same_stats (image_to_base64 env image).
Proof. unfold image_to_base64. kept. Qed.

#[local] Hint Resolve same_stats_image_to_base64 : kept.

(** The steps after decoding answer 500 or 200; a 200 follows a
    prediction that returned a result, shows the statistics as that
    prediction left them, and nothing after the prediction changes them. *)
Lemma predict_decoded_inv env file image w body status w' :
  predict_decoded env file image w = (Ok (body, status), w') →
  status = 500%nat
  ∨ (status = 200%nat
     ∧ ∃ r error wp,
         predict_image env image w = (Ok (Some r, error), wp)
         ∧ prediction_stats w' = prediction_stats wp
         ∧ json_field "stats" body = Some (stats_json env (prediction_stats w'))).
Proof.
  unfold predict_decoded. intros H.
  apply bind_Ok in H as ([result error] & wp & Hpred & H).
  destruct (truthy error); [apply ret_Ok in H as [[= -> ->] _]; by left |].
  apply bind_Ok in H as (copy & w1 & Hcopy & H).
  apply bind_Ok in H as (thumb & w2 & Hthumb & H).
  apply bind_Ok in H as (b64 & w3 & Hb64 & H).
  destruct result as [r|]; [| discriminate].
  apply bind_Ok in H as (ts & w4 & Hnow & H).
  apply bind_Ok in H as (stats & w5 & Hstats & H).
  apply ret_Ok in H as [[= -> ->] ->].
  unfold get_stats in Hstats. injection Hstats as <- <-.
  right. split; [done |]. exists r, error, wp. split; [done |].
  assert (prediction_stats w4 = prediction_stats wp) as Hsame.
  { pose proof (same_stats_call "Image.copy" (Ok image) wp) as H1.
    pose proof (same_stats_call "Image.thumbnail"
                  (Image_thumbnail env copy (400, 400)%nat) w1) as H2.
    pose proof (same_stats_image_to_base64 env thumb w2) as H3.
    pose proof (same_stats_now env w3) as H4.
    rewrite Hcopy in H1. rewrite Hthumb in H2. rewrite Hb64 in H3. rewrite Hnow in H4.
    unfold same_stats in *. cbn [snd] in *. congruence. }
  split; [exact Hsame |].
  reflexivity.
Qed.

(** What [predict] returns, by status. *)
Lemma predict_inv env request w body status w' :
  predict env request w = (Ok (body, status), w') →
  (status = 400%nat ∧ untouched w w')
  ∨ status = 500%nat
  ∨ (status = 200%nat
     ∧ ∃ file image wo r error wp,
         files_get "file" request = Some file
         ∧ open_upload env file w = (Ok (inl image), wo)
         ∧ predict_image env image wo = (Ok (Some r, error), wp)
         ∧ prediction_stats wo = prediction_stats w
         ∧ prediction_stats w' = prediction_stats wp
         ∧ json_field "stats" body = Some (stats_json env (prediction_stats w'))).
Proof.
  unfold predict, try_except.
  match goal with |- context [match ?c w with _ => _ end] => destruct (c w) as [[resp|e] w1] eqn:Hinner end.
  2:{ unfold print, emit, ret, mbind, M_bind, bind. intros [= <- <- <-]. auto. }
  intros [= -> ->].
  destruct (files_get "file" request) as [file|].
  2:{ apply ret_Ok in Hinner as [[= -> ->] ->]. left. split; [done | reflexivity]. }
  case_bool_decide.
  { apply ret_Ok in Hinner as [[= -> ->] ->]. left. split; [done | reflexivity]. }
  destruct (allowed_file (filename file)); simpl in Hinner.
  2:{ apply ret_Ok in Hinner as [[= -> ->] ->]. left. split; [done | reflexivity]. }
  apply bind_Ok in Hinner as (opened & wo & Hopen & Hrest).
  pose proof (untouched_open_upload env file w) as Hu. rewrite Hopen in Hu. cbn [snd] in Hu.
  destruct opened as [image|response].
  - apply predict_decoded_inv in Hrest as [-> | (-> & r & error & wp & Hp & Hs & Hj)];
      [auto |].
    right. right. split; [done |]. exists file, image, wo, r, error, wp.
    destruct Hu as (Hu & _). done.
  - apply ret_Ok in Hrest as [Hresp ->].
    apply open_upload_inr in Hopen as (e & Hr & _). rewrite Hr in Hresp.
    injection Hresp as -> ->. left. done.
Qed.

Lemma predict_returns env request w :
  ∃ body status w', predict env request w = (Ok (body, status), w').
Proof.
  unfold predict, try_except.
  match goal with |- context [match ?c w with _ => _ end] => destruct (c w) as [[[body status]|e] w1] end.
  - eauto.
  - unfold print, emit, ret, mbind, M_bind, bind. eauto.
Qed.

(** ** The handler of [POST /predict], as a whole *)

(** X13. [predict] lets no exception escape: for every request and every
    behaviour of the decoder, the model and the codec it returns a
    response, and the status of that response is 200, 400 or 500. *)
Theorem predict_status env request w :
  ∃ body status w',
    predict env request w = (Ok (body, status), w')
    ∧ (status = 200%nat ∨ status = 400%nat ∨ status = 500%nat).
Proof.
  destruct (predict_returns env request w) as (body & status & w' & Hrun).
  exists body, status, w'. split; [exact Hrun |].
  apply predict_inv in Hrun as [[-> _] | [-> | [-> _]]]; auto.
Qed.

(** X14. A request answered with 400 has cost nothing: the statistics
    are unchanged, the clock has not been read and no random number has
    been drawn, so the predictor has not run. *)
Theorem predict_400_untouched env request w body w' :
  predict env request w = (Ok (body, 400%nat), w') →
  prediction_stats w' = prediction_stats w
  ∧ clock_reads w' = clock_reads w
  ∧ rng_draws w' = rng_draws w.
Proof.
  intros Hrun.
  apply predict_inv in Hrun as [[_ Hu] | [[=] | [[=] _]]]. exact Hu.
Qed.

Lemma predict_400_untouched_witness :
  ∃ body w',
    predict (demo_env_no_decode None) (upload "scan.png") fresh_world
    = (Ok (body, 400%nat), w')
    ∧ body = error_json "Invalid image file: cannot identify image file"
    ∧ prediction_stats w' = initial_stats
    ∧ clock_reads w' = 0%nat ∧ rng_draws w' = 0%nat.
Proof.
  destruct (predict (demo_env_no_decode None) (upload "scan.png") fresh_world)
    as [[[body status]|e] w'] eqn:Hrun; [| vm_compute in Hrun; discriminate].
  assert (status = 400%nat ∧ body = error_json "Invalid image file: cannot identify image file")
    as [-> ->] by (vm_compute in Hrun; by injection Hrun as <- <- _).
  exists (error_json "Invalid image file: cannot identify image file"), w'.
  split; [reflexivity |]. split; [reflexivity |].
  exact (predict_400_untouched _ _ _ _ _ Hrun).
Defined.

(** X15. A request answered with 200 is counted exactly once:
    [total_predictions] has grown by one. *)
Theorem predict_200_counted env request w body w' :
  predict env request w = (Ok (body, 200%nat), w') →
  total_predictions (prediction_stats w')
  = (total_predictions (prediction_stats w) + 1)%nat.
Proof.
  intros Hrun.
  apply predict_inv in Hrun
    as [[[=] _] | [[=] | (_ & file & image & wo & r & error & wp & _ & _ & Hp & Ho & Hs & _)]].
  apply predict_image_counts in Hp. rewrite Hs, Hp, Ho. reflexivity.
Qed.

Lemma predict_200_counted_witness :
  ∃ body w',
    predict (demo_env None) (upload "scan.png") fresh_world = (Ok (body, 200%nat), w')
    ∧ total_predictions (prediction_stats w') = 1%nat.
Proof.
  destruct (predict (demo_env None) (upload "scan.png") fresh_world)
    as [[[body status]|e] w'] eqn:Hrun; [| vm_compute in Hrun; discriminate].
  assert (status = 200%nat) as -> by (vm_compute in Hrun; by injection Hrun as _ <- _).
  exists body, w'. split; [reflexivity |].
  exact (predict_200_counted _ _ _ _ _ Hrun).
Defined.

(** X16. The statistics shown in a 200 response are those
    [GET /api/statistics] reports right afterwards: the snapshot already
    includes the prediction just made. *)
Theorem predict_200_stats_snapshot env request w body w' :
  predict env request w = (Ok (body, 200%nat), w') →
  ∃ stats,
    get_statistics env w' = (Ok (stats, 200%nat), w')
    ∧ json_field "stats" body = Some stats.
Proof.
  intros Hrun.
  apply predict_inv in Hrun
    as [[[=] _] | [[=] | (_ & file & image & wo & r & error & wp & _ & _ & _ & _ & _ & Hj)]].
  exists (stats_json env (prediction_stats w')). split; [reflexivity | exact Hj].
Qed.

Lemma predict_200_stats_snapshot_witness :
  ∃ body w' stats,
    predict (demo_env None) (upload "scan.png") fresh_world = (Ok (body, 200%nat), w')
    ∧ get_statistics (demo_env None) w' = (Ok (stats, 200%nat), w')
    ∧ json_field "stats" body = Some stats
    ∧ json_field "total_predictions" stats = Some (JNum 1).
Proof.
  destruct (predict (demo_env None) (upload "scan.png") fresh_world)
    as [[[body status]|e] w'] eqn:Hrun; [| vm_compute in Hrun; discriminate].
  assert (status = 200%nat) as -> by (vm_compute in Hrun; by injection Hrun as _ <- _).
  destruct (predict_200_stats_snapshot _ _ _ _ _ Hrun) as (stats & Hget & Hfield).
  exists body, w', stats. split; [reflexivity |]. split; [exact Hget |].
  split; [exact Hfield |].
  vm_compute in Hrun. injection Hrun as <- <-. vm_compute in Hfield.
  injection Hfield as <-. vm_compute. reflexivity.
Defined.

(** X17. An upload that passes the name checks but that [Image.open] or
    [verify] rejects with [e] is answered with 400 and "Invalid image
    file: " followed by the text of [e]; apart from those two calls
    nothing has happened. *)
Theorem predict_decode_failure env request file w e :
  files_get "file" request = Some file →
  filename file ≠ "" →
  allowed_file (filename file) = true →
  (Image_open env (stream file) = Raise e
   ∨ ∃ image, Image_open env (stream file) = Ok image
              ∧ Image_verify env image = Raise e) →
  ∃ w',
    predict env request w
    = (Ok (error_json ("Invalid image file: " +:+ str_exn e), 400%nat), w')
    ∧ prediction_stats w' = prediction_stats w
    ∧ ∀ ev, ev ∈ trace w' →
            ev ∈ trace w ∨ ev = EvCall "Image.open" ∨ ev = EvCall "Image.verify".
Proof.
  intros Hfile Hname Hallowed Hfail.
  unfold predict, try_except. rewrite Hfile, bool_decide_eq_false_2, Hallowed by done.
  cbn [negb]. unfold open_upload, try_except, call, emit, lift, ret, mbind, M_bind, bind.
  destruct Hfail as [Hopen | (image & Hopen & Hverify)].
  - rewrite Hopen. eexists. split; [reflexivity |]. split; [reflexivity |].
    cbn [trace]. intros ev Hev. apply elem_of_cons in Hev as [-> | Hev]; auto.
  - rewrite Hopen, Hverify. eexists. split; [reflexivity |]. split; [reflexivity |].
    cbn [trace]. intros ev Hev.
    repeat (apply elem_of_cons in Hev as [-> | Hev]; auto).
Qed.

Lemma predict_decode_failure_witness :
  ∃ w',
    predict (demo_env_no_decode None) (upload "scan.png") fresh_world
    = (Ok (error_json "Invalid image file: cannot identify image file", 400%nat), w')
    ∧ prediction_stats w' = initial_stats.
Proof.
  destruct (predict_decode_failure (demo_env_no_decode None) (upload "scan.png")
              {| filename := "scan.png"; stream := "..." |} fresh_world
              (Exception "UnidentifiedImageError" "cannot identify image file"))
    as (w' & Hrun & Hst & _).
  - reflexivity.
  - discriminate.
  - vm_compute. reflexivity.
  - left. reflexivity.
  - exists w'. by split.
Defined.

(** X18. When the predictor reports an error, the answer is a 500
    whatever the text of the error; a text that is not empty is the
    [error] of the body.  (With an empty text [if error:] does not fire,
    and the 500 comes from the code that follows.) *)
Theorem predict_prediction_failure env request file w image wo msg wp :
  files_get "file" request = Some file →
  filename file ≠ "" →
  allowed_file (filename file) = true →
  open_upload env file w = (Ok (inl image), wo) →
  predict_image env image wo = (Ok (None, Some msg), wp) →
  ∃ body w',
    predict env request w = (Ok (body, 500%nat), w')
    ∧ (msg ≠ "" → body = error_json msg ∧ w' = wp).
Proof.
  intros Hfile Hname Hallowed Hopen Hpred.
  unfold predict, try_except. rewrite Hfile, bool_decide_eq_false_2, Hallowed by done.
  cbn [negb]. unfold mbind at 1, M_bind at 1, bind at 1. rewrite Hopen.
  unfold predict_decoded. unfold mbind at 1, M_bind at 1, bind at 1. rewrite Hpred.
  cbn [truthy]. case_bool_decide as Hmsg; cbn [negb].
  - unfold image_to_base64, call, emit, lift, ret, raise, print, mbind, M_bind, bind.
    destruct (Image_thumbnail env image (400, 400)%nat) as [thumb|e1];
      [destruct (Image_save_png env thumb) as [png|e2] |];
      (eexists _, _; split; [reflexivity | done]).
  - eexists _, _. split; [reflexivity |]. done.
Qed.

Lemma predict_prediction_failure_witness :
  ∃ body w',
    predict (demo_env (Some demo_model_failing)) (upload "scan.png") fresh_world
    = (Ok (body, 500%nat), w')
    ∧ body = error_json "out of memory".
Proof.
  destruct (open_upload (demo_env (Some demo_model_failing))
              {| filename := "scan.png"; stream := "..." |} fresh_world)
    as [[[image|resp]|e] wo] eqn:Hopen; try (vm_compute in Hopen; discriminate).
  destruct (predict_image (demo_env (Some demo_model_failing)) image wo)
    as [[[[r|] [msg|]]|e] wp] eqn:Hpred;
    try (pose proof Hopen as Hc; vm_compute in Hc; injection Hc as <- <-;
         vm_compute in Hpred; discriminate).
  assert (msg = "out of memory") as ->.
  { pose proof Hopen as Hc. vm_compute in Hc. injection Hc as <- <-.
    vm_compute in Hpred. by injection Hpred as <- _. }
  destruct (predict_prediction_failure (demo_env (Some demo_model_failing))
              (upload "scan.png") _ fresh_world image wo "out of memory" wp
              eq_refl ltac:(discriminate) ltac:(vm_compute; reflexivity) Hopen Hpred)
    as (body & w' & Hrun & Hbody).
  exists body, w'. split; [exact Hrun |]. by apply Hbody.
Defined.

Lemma files_get_first key before file after :
  key ∉ before.*1 →
  files_get key {| files := (before ++ (key, file) :: after)%list |} = Some file.
Proof.
  unfold files_get. cbn [files]. intros Hnot.
  induction before as [|[k f] before IH].
  - cbn. by rewrite decide_True.
  - cbn. cbn in Hnot. apply not_elem_of_cons in Hnot as [Hk Hnot].
    rewrite decide_False by (cbn; congruence).
    specialize (IH Hnot). cbn in IH.
    destruct (list_find _ _) as [[i kv]|]; [| done]. cbn in *. done.
Qed.

(** X19. Only the first part named ['file'] is looked at: parts under
    other names before it, and any parts after it, make no difference to
    the response or to the world. *)
Theorem predict_first_file_part env before file after w :
  "file" ∉ before.*1 →
  predict env {| files := (before ++ ("file", file) :: after)%list |} w
  = predict env {| files := [("file", file)] |} w.
Proof.
  intros Hnot. unfold predict.
  rewrite (files_get_first "file" before file after Hnot).
  change {| files := [("file", file)] |}
    with {| files := ([] ++ ("file", file) :: [])%list |}.
  by rewrite (files_get_first "file" [] file []) by apply not_elem_of_nil.
Qed.

Lemma predict_first_file_part_witness :
  predict (demo_env None)
    {| files := [("note", {| filename := "a.txt"; stream := "hello" |});
                 ("file", {| filename := "scan.png"; stream := "..." |});
                 ("file", {| filename := "other.txt"; stream := "" |})] |} fresh_world
  = predict (demo_env None) (upload "scan.png") fresh_world.
Proof.
  apply (predict_first_file_part (demo_env None)
           [("note", {| filename := "a.txt"; stream := "hello" |})]
           {| filename := "scan.png"; stream := "..." |}
           [("file", {| filename := "other.txt"; stream := "" |})]).
  cbn. intros Hin. apply elem_of_cons in Hin as [[=] | Hin]. by apply elem_of_nil in Hin.
Defined.

(** X20. A part named ['file'] with an empty file name is answered with
    400 and "No file selected" before the name filter and the decoder are
    consulted, whatever the part contains; the world is left as it
    was. *)
Theorem predict_empty_filename env request file w :
  files_get "file" request = Some file →
  filename file = "" →
  predict env request w = (Ok (error_json "No file selected", 400%nat), w).
Proof.
  intros Hfile Hname. unfold predict, try_except.
  rewrite Hfile, bool_decide_eq_true_2 by done. reflexivity.
Qed.

Lemma predict_empty_filename_witness :
  predict (demo_env None) (upload "") fresh_world
  = (Ok (error_json "No file selected", 400%nat), fresh_world).
Proof.
  by apply (predict_empty_filename _ _ {| filename := ""; stream := "..." |}).
Defined.

(** ** The diagnostic endpoint *)

(** [test_image] is the predictor run on the white image, after the
    call of [Image.new]. *)
Lemma test_image_unfold env w :
  ∃ result error wp,
    predict_image env white_image (emit (EvCall "Image.new") w).2
    = (Ok (result, error), wp)
    ∧ test_image env w
      = (Ok (if truthy error
             then BText ("Error: " +:+ default "" error)
             else BJson (JObj [("status", JStr "success");
                               ("message", JStr "Model is working correctly");
                               ("test_prediction",
                                 match result with
                                 | Some r => JObj (prediction_fields r)
                                 | None => JNull
                                 end)]),
             200%nat), wp).
Proof.
  destruct (predict_image_returns env white_image (emit (EvCall "Image.new") w).2)
    as ([result error] & wp & Hp).
  exists result, error, wp. split; [exact Hp |].
  unfold test_image, try_except, call.
  unfold mbind, M_bind. unfold bind at 1 2 3. unfold lift at 1.
  cbn [emit fst snd] in *. rewrite Hp. by destruct (truthy error).
Qed.

(** X21. [GET /test-image] does not turn a failed prediction into an
    error status: since [predict_image] catches every exception, the
    status is always 200, and when the predictor reports an error with a
    text that is not empty, the body is the plain text "Error: " followed
    by that text. *)
Theorem test_image_status env w :
  ∃ body w',
    test_image env w = (Ok (body, 200%nat), w')
    ∧ ∀ result msg wp,
        predict_image env white_image (emit (EvCall "Image.new") w).2
        = (Ok (result, Some msg), wp) →
        msg ≠ "" → body = BText ("Error: " +:+ msg).
Proof.
  destruct (test_image_unfold env w) as (result & error & wp & Hp & Hrun).
  eexists _, wp. split; [exact Hrun |].
  intros result' msg wp' Hp' Hmsg. rewrite Hp in Hp'. injection Hp' as -> -> ->.
  cbn [truthy]. by rewrite bool_decide_eq_false_2.
Qed.

(** X22. A diagnostic run counts as a prediction: when [GET /test-image]
    returns a JSON body whose [test_prediction] is an object, the
    statistics have been updated, and [total_predictions] has grown by
    one. *)
Theorem test_image_counted env w j status w' fields :
  test_image env w = (Ok (BJson j, status), w') →
  json_field "test_prediction" j = Some (JObj fields) →
  total_predictions (prediction_stats w')
  = (total_predictions (prediction_stats w) + 1)%nat.
Proof.
  intros Hrun Hfield.
  destruct (test_image_unfold env w) as (result & error & wp & Hp & Hrun').
  rewrite Hrun' in Hrun. destruct (truthy error); [discriminate |].
  injection Hrun as <- _ <-.
  destruct result as [r|]; [| discriminate].
  apply predict_image_counts in Hp. exact Hp.
Qed.

Lemma test_image_counted_witness :
  ∃ j w' fields,
    test_image (demo_env None) fresh_world = (Ok (BJson j, 200%nat), w')
    ∧ json_field "test_prediction" j = Some (JObj fields)
    ∧ total_predictions (prediction_stats w') = 1%nat.
Proof.
  destruct (test_image (demo_env None) fresh_world) as [[[[j|s] status]|e] w'] eqn:Hrun;
    try (vm_compute in Hrun; discriminate).
  assert (status = 200%nat) as -> by (vm_compute in Hrun; by injection Hrun as _ <- _).
  destruct (json_field "test_prediction" j) as [[| | | | |fields]|] eqn:Hfield;
    try (vm_compute in Hrun; injection Hrun as <- _; vm_compute in Hfield; discriminate).
  exists j, w', fields. split; [reflexivity |]. split; [exact Hfield |].
  exact (test_image_counted _ _ _ _ _ _ Hrun Hfield).
Defined.

Example test_image_error_is_text :
  (test_image (demo_env_no_convert (Some demo_model_failing)) fresh_world).1
  = Ok (BText "Error: out of memory", 200%nat).
Proof. vm_compute. reflexivity. Qed.

(** ** The handler of [POST /predict]: the successful path *)

(** X23. When the upload decodes, the predictor returns a result and the
    preview can be built, the answer is a 200 whose body names the
    predicted class and the uploaded file, gives the size of the image as
    decoded (not of the preview) and carries the preview as a PNG data
    URI. *)
Theorem predict_success env request file image wo r error wp thumb png w :
  files_get "file" request = Some file →
  filename file ≠ "" →
  allowed_file (filename file) = true →
  open_upload env file w = (Ok (inl image), wo) →
  predict_image env image wo = (Ok (Some r, error), wp) →
  Image_thumbnail env image (400, 400)%nat = Ok thumb →
  Image_save_png env thumb = Ok png →
  ∃ body w',
    predict env request w = (Ok (body, 200%nat), w')
    ∧ json_field "predicted_class" body = Some (JStr (predicted_class r))
    ∧ json_field "filename" body = Some (JStr (filename file))
    ∧ json_field "original_size" body
      = Some (JArr [JNum (inject_Z (Z.of_nat (size image).1));
                    JNum (inject_Z (Z.of_nat (size image).2))])
    ∧ json_field "image_preview" body
      = Some (JStr ("data:image/png;base64," +:+ b64encode env png)).
Proof.
  intros Hfile Hname Hallowed Hopen Hpred Hthumb Hsave.
  pose proof (predict_image_Some _ _ _ _ _ _ Hpred) as [_ ->].
  unfold predict, try_except. rewrite Hfile, bool_decide_eq_false_2, Hallowed by done.
  cbn [negb]. unfold mbind at 1, M_bind at 1, bind at 1. rewrite Hopen.
  unfold predict_decoded. unfold mbind at 1, M_bind at 1, bind at 1. rewrite Hpred.
  cbn [truthy].
  unfold image_to_base64, call, emit, lift, ret, now, get_stats, mbind, M_bind, bind.
  rewrite Hthumb, Hsave.
  eexists _, _. split; [reflexivity |]. by repeat split.
Qed.

Lemma predict_success_witness :
  ∃ body w',
    predict (demo_env None) (upload "scan.PNG") fresh_world = (Ok (body, 200%nat), w')
    ∧ json_field "predicted_class" body = Some (JStr "notumor")
    ∧ json_field "filename" body = Some (JStr "scan.PNG")
    ∧ json_field "original_size" body = Some (JArr [JNum 2; JNum 3]).
Proof.
  destruct (open_upload (demo_env None) {| filename := "scan.PNG"; stream := "..." |}
              fresh_world) as [[[image|resp]|e] wo] eqn:Hopen;
    try (vm_compute in Hopen; discriminate).
  assert (image = black "L" (2, 3)%nat) as ->
    by (vm_compute in Hopen; by injection Hopen as <- _).
  destruct (predict_image (demo_env None) (black "L" (2, 3)%nat) wo)
    as [[[[r|] error]|e] wp] eqn:Hpred;
    try (vm_compute in Hopen; injection Hopen as <-; vm_compute in Hpred; discriminate).
  destruct (predict_success (demo_env None) (upload "scan.PNG") _ _ wo r error wp
              (black "L" (1, 1)%nat) "PNG" fresh_world
              eq_refl ltac:(discriminate) ltac:(vm_compute; reflexivity)
              Hopen Hpred eq_refl eq_refl)
    as (body & w' & Hrun & Hcls & Hname & Hsize & _).
  exists body, w'. split; [exact Hrun |].
  assert (predicted_class r = "notumor") as Hr.
  { vm_compute in Hopen. injection Hopen as <-. vm_compute in Hpred.
    by injection Hpred as <- _. }
  rewrite Hr in Hcls. by repeat split.
Defined.
